(** * Rubrix client: the ingestion coordinator of [rubrix/client/api.py]

    A shallow embedding of [Api.log_async], [_RubrixLogAgent], [Api.log] and
    the module-level default client, with the properties of the chunked
    upload, of its input validation and of the blocking and background
    calling conventions. *)

From Stdlib Require Import Sorting.Sorted.
From stdpp Require Import base numbers list strings gmap pretty.

Local Open Scope Z_scope.

(** ** Python values and primitives used by the client *)

Module Py.

(** Classes of the objects a caller can put in a batch.  The three record
    variants are the members of [Record.__args__]; [Subclass] is a class
    deriving from another one (it inherits every field of its base);
    [OtherClass] is any class unrelated to the record variants. *)
Inductive pytype :=
  | TextClassificationRecord
  | TokenClassificationRecord
  | Text2TextRecord
  | Subclass (name : string) (base : pytype)
  | OtherClass (name : string).

(** [Record.__args__] *)
Definition Record_args : list pytype :=
  [TextClassificationRecord; TokenClassificationRecord; Text2TextRecord].

(** [issubclass(t, Record.__args__)] *)
Fixpoint issubclass_Record (t : pytype) : bool :=
  match t with
  | TextClassificationRecord | TokenClassificationRecord | Text2TextRecord => true
  | Subclass _ base => issubclass_Record base
  | OtherClass _ => false
  end.

(** An object: its class ([type(o)]) and its content, opaque to the client. *)
Record pyobj := { ob_type : pytype; ob_data : nat }.

(** [isinstance(o, Record.__args__)] *)
Definition isinstance_Record (o : pyobj) : bool := issubclass_Record (ob_type o).

(** Pieces of a formatted message (an f-string): literal text and the
    interpolated values. *)
Inductive frag :=
  | Lit (s : string)
  | FStr (s : string)
  | FInt (z : Z)
  | FType (t : pytype)
  | FTypes (ts : list pytype)
  | FPattern.
Definition message := list frag.

(** Exception classes: those the client raises or handles itself, a class
    of a collaborator that derives from [Exception] ([ExternalError]), and
    a class that derives from [BaseException] without deriving from
    [Exception] ([NonError]: [KeyboardInterrupt], [SystemExit],
    [CancelledError]). *)
Inductive exc_class :=
  | InputValueError
  | IndexError
  | ValueError
  | TypeError
  | ExternalError (name : string)
  | NonError (name : string).

(** [issubclass(c, Exception)] *)
Definition is_Exception (c : exc_class) : bool :=
  match c with
  | NonError _ => false
  | _ => true
  end.

(** An exception instance built from one message: [str(ex)] is the
    message, [ex.args] is [(message,)]. *)
Record exn := { exc_type : exc_class; exc_msg : message }.

Definition exc_args (e : exn) : list message := [exc_msg e].

Inductive outcome (A : Type) :=
  | Returns (a : A)
  | Raises (e : exn).
Global Arguments Returns {A} a.
Global Arguments Raises {A} e.

Definition returned {A} (o : outcome A) : bool :=
  match o with Returns _ => true | Raises _ => false end.

(** Length of [range(start, stop, step)] for a non-zero step, as CPython
    computes it. *)
Definition range_length (start stop step : Z) : Z :=
  if 0 <? step then
    if start <? stop then (stop - start - 1) / step + 1 else 0
  else
    if stop <? start then (start - stop - 1) / (- step) + 1 else 0.

(** [range(start, stop, step)], listed. *)
Definition range (start stop step : Z) : outcome (list Z) :=
  if step =? 0 then
    Raises {| exc_type := ValueError;
              exc_msg := [Lit "range() arg 3 must not be zero"] |}
  else
    Returns (map (λ k : nat, start + Z.of_nat k * step)
                 (seq 0 (Z.to_nat (range_length start stop step)))).

(** Normalisation of a slice bound against a length. *)
Definition slice_bound (len i : Z) : Z :=
  if i <? 0 then Z.max (i + len) 0 else Z.min i len.

(** [l[lo:hi]] *)
Definition slice {A} (l : list A) (lo hi : Z) : list A :=
  let n := Z.of_nat (length l) in
  let lo' := slice_bound n lo in
  let hi' := slice_bound n hi in
  take (Z.to_nat (hi' - lo')) (drop (Z.to_nat lo') l).

(** [l[i]] for a non-negative index. *)
Definition getitem {A} (l : list A) (i : nat) : outcome A :=
  match l !! i with
  | Some x => Returns x
  | None => Raises {| exc_type := IndexError;
                      exc_msg := [Lit "list index out of range"] |}
  end.

(** State and exception monad: a computation transforms a state and either
    returns a value or raises. *)
Definition stexn (S A : Type) : Type := S → S * outcome A.

Definition ret {S A} (a : A) : stexn S A := λ s, (s, Returns a).
Definition raise {S A} (e : exn) : stexn S A := λ s, (s, Raises e).
Definition bind {S A B} (m : stexn S A) (k : A → stexn S B) : stexn S B :=
  λ s, match m s with
       | (s', Returns a) => k a s'
       | (s', Raises e) => (s', Raises e)
       end.
Definition lift {S A} (o : outcome A) : stexn S A := λ s, (s, o).

(** [try: m except <classes accepted by catches> as ex: handler ex] *)
Definition try_except {S A} (m : stexn S A) (catches : exc_class → bool)
    (handler : exn → stexn S A) : stexn S A :=
  λ s, match m s with
       | (s', Returns a) => (s', Returns a)
       | (s', Raises e) =>
           if catches (exc_type e) then handler e s' else (s', Raises e)
       end.

(** [try: m finally: fin] *)
Definition try_finally {S A B} (m : stexn S A) (fin : stexn S B) : stexn S A :=
  λ s, match m s with
       | (s', r) =>
           match fin s' with
           | (s'', Returns _) => (s'', r)
           | (s'', Raises e) => (s'', Raises e)
           end
       end.

(** [[f(x) for x in l]] for an [f] that may raise. *)
Fixpoint comprehension {A B} (f : A → outcome B) (l : list A) : outcome (list B) :=
  match l with
  | [] => Returns []
  | x :: l' =>
      match f x with
      | Raises e => Raises e
      | Returns y =>
          match comprehension f l' with
          | Raises e => Raises e
          | Returns ys => Returns (y :: ys)
          end
      end
  end.

(** [for x in l: acc = body x acc], leaving the loop at the first exception. *)
Fixpoint for_each {S A B} (l : list A) (acc : B) (body : A → B → stexn S B)
    : stexn S B :=
  match l with
  | [] => ret acc
  | x :: l' => bind (body x acc) (λ acc', for_each l' acc' body)
  end.

End Py.

Import Py.

Declare Scope py_scope.
Delimit Scope py_scope with py.
Notation "x <- m ;; k" := (bind m (λ x, k))
  (at level 100, m at next level, right associativity) : py_scope.
Notation "m ;;; k" := (bind m (λ _, k))
  (at level 100, right associativity) : py_scope.
Local Open Scope py_scope.

(** ** Data model of the client *)

(** [dict] arguments ([tags], [metadata], the client's headers). *)
Abbreviation dict := (gmap string string).

(** The wire classes selected by the dispatch on the record type. *)
Inductive bulk_class :=
  | TextClassificationBulkData
  | TokenClassificationBulkData
  | Text2TextBulkData.

Inductive creation_class :=
  | CreationTextClassificationRecord
  | CreationTokenClassificationRecord
  | CreationText2TextRecord.

(** The [json_body] of one bulk call: [bulk_class(tags=, metadata=, records=)]. *)
Record bulk_data (CR : Type) := {
  bd_class : bulk_class;
  bd_tags : dict;
  bd_metadata : dict;
  bd_records : list CR
}.
Global Arguments bd_class {CR} _.
Global Arguments bd_tags {CR} _.
Global Arguments bd_metadata {CR} _.
Global Arguments bd_records {CR} _.

(** One call of [async_bulk(client=, name=, json_body=)]. *)
Record bulk_call (CR : Type) := {
  bc_name : string;
  bc_body : bulk_data CR
}.
Global Arguments bc_name {CR} _.
Global Arguments bc_body {CR} _.

(** [response.parsed] of a bulk call. *)
Record bulk_parsed := { bp_processed : Z; bp_failed : Z }.

(** [BulkResponse(dataset=, processed=, failed=)] *)
Record BulkResponse := { dataset : string; processed : Z; failed : Z }.

(** The [records] argument: one object, or an iterable listed in order. *)
Inductive records_arg :=
  | OneObject (o : pyobj)
  | Iterable (os : list pyobj).

(** The keyword arguments [Api.log] passes to the agent. *)
Record log_kwargs := {
  kw_records : records_arg;
  kw_name : string;
  kw_tags : option dict;
  kw_metadata : option dict;
  kw_chunk_size : Z;
  kw_verbose : bool
}.

(** What the client needs of an [Api] instance: [_client.base_url],
    [_client.headers], [_user.username], and the scheduling loop its
    [_agent] holds. *)
Record Api := {
  base_url : string;
  headers : dict;
  username : string;
  agent_loop : nat
}.

(** The arguments of [Api.__init__]. *)
Record init_args := {
  arg_api_url : option string;
  arg_api_key : option string;
  arg_workspace : option string;
  arg_timeout : Z
}.

(** [Api()] *)
Definition default_init_args : init_args :=
  {| arg_api_url := None; arg_api_key := None; arg_workspace := None;
     arg_timeout := 60 |}.

(** What lines 135-147 of [Api.__init__] establish: the client, the user
    and the workspace header. *)
Record session := {
  s_base_url : string;
  s_headers : dict;
  s_username : string
}.

(** The collaborators imported by [api.py] from outside the client module:
    the wire conversion [creation_class.from_client], the match of
    [DATASET_NAME_REGEX_PATTERN] ([re.match(..., name)] is truthy), the
    transport call [async_bulk], whose answer may depend on the calls the
    server has already received, the workspace header name, and the
    connection made by [Api.__init__] ([AuthenticatedClient], [whoami],
    [set_workspace]), which raises when the server refuses it. *)
Class Collaborators := {
  CreationRecord : Type;
  from_client : creation_class → pyobj → outcome CreationRecord;
  name_matches : string → bool;
  async_bulk : list (bulk_call CreationRecord) → bulk_call CreationRecord
               → outcome bulk_parsed;
  RUBRIX_WORKSPACE_HEADER_NAME : string;
  connect : init_args → outcome session
}.

Inductive log_level := WARNING | INFO | ERROR.

(** What a [_LOGGER] call records: a formatted text, or the report of
    [__log_internal__], which formats the call's arguments together with
    [type(ex)], [ex] and [ex.args]. *)
Inductive log_payload :=
  | LogText (m : message)
  | LogFailure (kwargs : log_kwargs) (ty : exc_class) (str_ex : message)
      (args_ex : list message).

(** Observable effects of the upload coroutine, in program order. *)
Inductive event `{Collaborators} :=
  | EvLog (lvl : log_level) (p : log_payload)
  | EvTqdm (total : nat) (disable : bool)
  | EvUpdate (n : nat)
  | EvClose
  | EvPrint (m : message)
  | EvBulk (c : bulk_call CreationRecord).

Section Coroutine.
Context `{Collaborators}.

(** A coroutine run on the worker: it extends the trace of events. *)
Definition Co (A : Type) : Type := stexn (list event) A.

Definition emit (ev : event) : Co unit := λ tr, (tr ++ [ev], Returns ()).

(** The bulk calls of a trace, oldest first. *)
Definition bulk_calls (tr : list event) : list (bulk_call CreationRecord) :=
  omap (λ ev, match ev with EvBulk c => Some c | _ => None end) tr.

(** [await async_bulk(client=self._client, name=name, json_body=body)] *)
Definition await_async_bulk (name : string) (body : bulk_data CreationRecord)
    : Co bulk_parsed :=
  λ tr, let c := {| bc_name := name; bc_body := body |} in
        (tr ++ [EvBulk c], async_bulk (bulk_calls tr) c).

Definition _MAX_CHUNK_SIZE : Z := 5000.

Definition input_value_error (m : message) : exn :=
  {| exc_type := InputValueError; exc_msg := m |}.

Definition empty_name_error : exn :=
  input_value_error [Lit "Empty dataset name has been passed as argument."].

Definition name_pattern_error (name : string) : exn :=
  input_value_error
    [Lit "Provided dataset name "; FStr name;
     Lit " does not match the pattern "; FPattern;
     Lit ". Please, use a valid name for your dataset"].

Definition empty_records_error : exn :=
  input_value_error [Lit "Empty record list has been passed as argument."].

Definition unknown_type_error (record_type : pytype) : exn :=
  input_value_error
    [Lit "Unknown record type "; FType record_type;
     Lit ". Available values are "; FTypes Record_args].

(** [d or {}] *)
Definition or_empty (d : option dict) : dict := default ∅ d.

(** Lines 343-345: a single record is wrapped in a list, anything else goes
    through [list(...)], which raises on an object that is not iterable. *)
Definition as_list (records : records_arg) : outcome (list pyobj) :=
  match records with
  | OneObject o =>
      if isinstance_Record o then Returns [o]
      else Raises {| exc_type := TypeError;
                     exc_msg := [FType (ob_type o); Lit " object is not iterable"] |}
  | Iterable os => Returns os
  end.

(** Lines 352-364: the [is] tests on [type(records[0])]. *)
Definition dispatch (record_type : pytype) : outcome (bulk_class * creation_class) :=
  match record_type with
  | TextClassificationRecord =>
      Returns (TextClassificationBulkData, CreationTextClassificationRecord)
  | TokenClassificationRecord =>
      Returns (TokenClassificationBulkData, CreationTokenClassificationRecord)
  | Text2TextRecord =>
      Returns (Text2TextBulkData, CreationText2TextRecord)
  | _ => Raises (unknown_type_error record_type)
  end.

(** [Api.get_workspace] *)
Definition get_workspace (api : Api) : string :=
  default (username api) (headers api !! RUBRIX_WORKSPACE_HEADER_NAME).

(** The body of the loop of lines 368-384 for the index [i]. *)
Definition upload_chunk (records : list pyobj) (name : string)
    (tags metadata : dict) (chunk_size : Z) (bulk_cls : bulk_class)
    (creation_cls : creation_class) (i : Z) (acc : Z * Z) : Co (Z * Z) :=
  let chunk := slice records i (i + chunk_size) in
  body <- lift (comprehension (from_client creation_cls) chunk) ;;
  response <- await_async_bulk name
                {| bd_class := bulk_cls; bd_tags := tags;
                   bd_metadata := metadata; bd_records := body |} ;;
  emit (EvUpdate (length chunk)) ;;;
  ret (acc.1 + bp_processed response, acc.2 + bp_failed response).

(** Lines 387-399. *)
Definition report (api : Api) (name : string) (processed failed : Z) : Co unit :=
  emit (EvLog INFO (LogText [Lit "Processed "; FInt processed;
                             Lit " records in dataset "; FStr name;
                             Lit ". Failed: "; FInt failed])) ;;;
  let workspace := get_workspace api in
  let workspace := if bool_decide (workspace = "") then "-" else workspace in
  emit (EvPrint [FInt processed; Lit " records logged to "; FStr (base_url api);
                 Lit "/datasets/"; FStr workspace; Lit "/"; FStr name]).

(** [Api.log_async] *)
Definition log_async (api : Api) (records : records_arg) (name : string)
    (tags metadata : option dict) (chunk_size : Z) (verbose : bool)
    : Co BulkResponse :=
  let tags := or_empty tags in
  let metadata := or_empty metadata in
  if bool_decide (name = "") then raise empty_name_error
  else if negb (name_matches name) then raise (name_pattern_error name)
  else
    (if _MAX_CHUNK_SIZE <? chunk_size then
       emit (EvLog WARNING
               (LogText [Lit "The introduced chunk size is noticeably large, timeout errors may occur.";
                         Lit "Consider a chunk size smaller than ";
                         FInt _MAX_CHUNK_SIZE]))
     else ret ()) ;;;
    records <- lift (as_list records) ;;
    record_type <- try_except
                     (first <- lift (getitem records 0) ;; ret (ob_type first))
                     (λ c, match c with IndexError => true | _ => false end)
                     (λ _, raise empty_records_error) ;;
    classes <- lift (dispatch record_type) ;;
    emit (EvTqdm (length records) (negb verbose)) ;;;
    indices <- lift (range 0 (Z.of_nat (length records)) chunk_size) ;;
    totals <- for_each indices (0, 0)
                (upload_chunk records name tags metadata chunk_size
                   classes.1 classes.2) ;;
    emit EvClose ;;;
    (if verbose then report api name totals.1 totals.2 else ret ()) ;;;
    ret {| dataset := name; processed := totals.1; failed := totals.2 |}.

(** [_RubrixLogAgent.__log_internal__], with its [except Exception]. *)
Definition log_internal (api : Api) (kwargs : log_kwargs) : Co BulkResponse :=
  try_except
    (log_async api (kw_records kwargs) (kw_name kwargs) (kw_tags kwargs)
       (kw_metadata kwargs) (kw_chunk_size kwargs) (kw_verbose kwargs))
    is_Exception
    (λ ex, emit (EvLog ERROR (LogFailure kwargs (exc_type ex) (exc_msg ex)
                                (exc_args ex))) ;;;
           raise ex).

End Coroutine.

(** ** The agent, the futures and the module-level default client *)

(** A future made by [asyncio.run_coroutine_threadsafe]: the coroutine the
    worker has not run yet, its outcome once the worker has run it, or
    cancelled. *)
Inductive future_state `{Collaborators} :=
  | Pending (job : Co BulkResponse)
  | Finished (r : outcome BulkResponse)
  | Cancelled.

(** What the calling thread does to the execution context and to futures. *)
Inductive caller_event :=
  | EvLoopStart (loop : nat)
  | EvSubmit (fid loop : nat)
  | EvWait (fid : nat)
  | EvCancel (fid : nat).

(** The state of the process: the trace of the worker thread, the trace of
    the calling thread, the futures by identifier, the [Api] objects
    constructed so far, [__ACTIVE_API__], and the loop held by
    [rubrix.utils]. *)
Record process `{Collaborators} := {
  worker_trace : list event;
  caller_trace : list caller_event;
  futures : list future_state;
  apis : list Api;
  __ACTIVE_API__ : option Api;
  __LOOP__ : option nat
}.

(** What [Api.log] returns. *)
Inductive log_result :=
  | RetResponse (r : BulkResponse)
  | RetFuture (fid : nat).

(** What a blocking [Api.log] hands over for an outcome of the coroutine:
    [future.result()] returns the response or raises the exception. *)
Definition as_log_result (r : outcome BulkResponse) : outcome log_result :=
  match r with
  | Returns b => Returns (RetResponse b)
  | Raises e => Raises e
  end.

(** Calls a program makes to the client module. *)
Inductive call :=
  | CallInit (args : init_args)
  | CallActiveApi
  | CallLog (kwargs : log_kwargs) (background : bool)
  | CallNewApi (args : init_args)
  | CallApiLog (i : nat) (kwargs : log_kwargs) (background : bool).

Section Process.
Context `{Collaborators}.

Definition Proc (A : Type) : Type := stexn process A.

Definition initial_process : process :=
  {| worker_trace := []; caller_trace := []; futures := []; apis := [];
     __ACTIVE_API__ := None; __LOOP__ := None |}.

Definition set_worker_trace (tr : list event) (p : process) : process :=
  {| worker_trace := tr; caller_trace := caller_trace p; futures := futures p;
     apis := apis p; __ACTIVE_API__ := __ACTIVE_API__ p; __LOOP__ := __LOOP__ p |}.

Definition record_caller (ev : caller_event) (p : process) : process :=
  {| worker_trace := worker_trace p; caller_trace := caller_trace p ++ [ev];
     futures := futures p; apis := apis p;
     __ACTIVE_API__ := __ACTIVE_API__ p; __LOOP__ := __LOOP__ p |}.

Definition set_futures (fs : list future_state) (p : process) : process :=
  {| worker_trace := worker_trace p; caller_trace := caller_trace p; futures := fs;
     apis := apis p; __ACTIVE_API__ := __ACTIVE_API__ p; __LOOP__ := __LOOP__ p |}.

Definition add_api (a : Api) (p : process) : process :=
  {| worker_trace := worker_trace p; caller_trace := caller_trace p;
     futures := futures p; apis := apis p ++ [a];
     __ACTIVE_API__ := __ACTIVE_API__ p; __LOOP__ := __LOOP__ p |}.

Definition set_active_api (a : Api) (p : process) : process :=
  {| worker_trace := worker_trace p; caller_trace := caller_trace p;
     futures := futures p; apis := apis p;
     __ACTIVE_API__ := Some a; __LOOP__ := __LOOP__ p |}.

Definition set_loop (l : nat) (p : process) : process :=
  {| worker_trace := worker_trace p; caller_trace := caller_trace p;
     futures := futures p; apis := apis p;
     __ACTIVE_API__ := __ACTIVE_API__ p; __LOOP__ := Some l |}.

(** Modelled from the spec: [rubrix.utils.setup_loop_in_thread] is imported
    by [api.py] and its source is not available.  The execution context is
    a process-wide singleton, lazily created on first need: the first call
    starts a scheduling loop on a dedicated thread and keeps it, every later
    call returns the loop that is kept. *)
Definition setup_loop_in_thread : Proc nat :=
  λ p, match __LOOP__ p with
       | Some l => (p, Returns l)
       | None =>
           let l := length (caller_trace p) in
           (set_loop l (record_caller (EvLoopStart l) p), Returns l)
       end.

(** [Api.__init__]: the connection, then [self._agent = _RubrixLogAgent(self)],
    whose constructor takes the loop of [setup_loop_in_thread()]. *)
Definition Api_init (args : init_args) : Proc Api :=
  s <- lift (connect args) ;;
  loop <- setup_loop_in_thread ;;
  let api := {| base_url := s_base_url s; headers := s_headers s;
                username := s_username s; agent_loop := loop |} in
  (λ p, (add_api api p, Returns api)).

(** [asyncio.run_coroutine_threadsafe(coro, loop)] *)
Definition run_coroutine_threadsafe (job : Co BulkResponse) (loop : nat) : Proc nat :=
  λ p, let fid := length (futures p) in
       (record_caller (EvSubmit fid loop) (set_futures (futures p ++ [Pending job]) p),
        Returns fid).

(** [_RubrixLogAgent.log] *)
Definition agent_log (api : Api) (kwargs : log_kwargs) : Proc nat :=
  run_coroutine_threadsafe (log_internal api kwargs) (agent_loop api).

(** The worker runs the coroutine of a pending future to its end and
    resolves the future with the outcome. *)
Definition worker_run (fid : nat) : Proc unit :=
  λ p, match futures p !! fid with
       | Some (Pending job) =>
           let (tr, r) := job (worker_trace p) in
           (set_futures (<[fid := Finished r]> (futures p)) (set_worker_trace tr p),
            Returns ())
       | _ => (p, Returns ())
       end.

(** [future.result()]: waits for the worker, then returns the outcome or
    raises what the coroutine raised. *)
Definition future_result (fid : nat) : Proc BulkResponse :=
  (λ p, (record_caller (EvWait fid) p, Returns ())) ;;;
  worker_run fid ;;;
  (λ p, match futures p !! fid with
        | Some (Finished r) => (p, r)
        | _ => (p, Raises {| exc_type := NonError "CancelledError"; exc_msg := [] |})
        end).

(** [future.cancel()]: a pending future becomes cancelled, a resolved one
    is left as it is. *)
Definition future_cancel (fid : nat) : Proc bool :=
  λ p, let p' := record_caller (EvCancel fid) p in
       match futures p !! fid with
       | Some (Pending _) => (set_futures (<[fid := Cancelled]> (futures p)) p', Returns true)
       | Some Cancelled => (p', Returns true)
       | _ => (p', Returns false)
       end.

(** [Api.log] *)
Definition Api_log (api : Api) (kwargs : log_kwargs) (background : bool)
    : Proc log_result :=
  future <- agent_log api kwargs ;;
  if background then ret (RetFuture future)
  else
    try_finally
      (r <- future_result future ;; ret (RetResponse r))
      (future_cancel future).

(** [active_api()] *)
Definition active_api : Proc Api :=
  λ p, match __ACTIVE_API__ p with
       | Some api => (p, Returns api)
       | None =>
           (api <- Api_init default_init_args ;;
            (λ p', (set_active_api api p', Returns api))) p
       end.

(** [init] of the module *)
Definition init (args : init_args) : Proc unit :=
  api <- Api_init args ;;
  (λ p, (set_active_api api p, Returns ())).

(** [log] of the module *)
Definition log (kwargs : log_kwargs) (background : bool) : Proc log_result :=
  api <- active_api ;;
  Api_log api kwargs background.

(** One call of a program; the program goes on after a call that raised. *)
Definition perform (c : call) (p : process) : process :=
  match c with
  | CallInit args => (init args p).1
  | CallActiveApi => (active_api p).1
  | CallLog kwargs background => (log kwargs background p).1
  | CallNewApi args => (Api_init args p).1
  | CallApiLog i kwargs background =>
      match apis p !! i with
      | Some api => (Api_log api kwargs background p).1
      | None => p
      end
  end.

Definition run_program (cs : list call) (p : process) : process :=
  foldl (λ p c, perform c p) p cs.

End Process.

(** ** Vocabulary of the properties *)

Definition Zsum (l : list Z) : Z := foldr Z.add 0 l.

(** Ceiling of [N / C] for a positive [C]. *)
Definition n_chunks (N C : Z) : Z := (N + C - 1) / C.

(** Chunk number [i] of a batch: [records[i*C : (i+1)*C]]. *)
Definition chunk_at (records : list pyobj) (C : Z) (i : nat) : list pyobj :=
  slice records (Z.of_nat i * C) ((Z.of_nat i + 1) * C).

Section Vocabulary.
Context `{Collaborators}.

(** The events [log_async] emits before the loop and after it. *)
Definition warning_events (chunk_size : Z) : list event :=
  if _MAX_CHUNK_SIZE <? chunk_size then
    [EvLog WARNING
       (LogText [Lit "The introduced chunk size is noticeably large, timeout errors may occur.";
                 Lit "Consider a chunk size smaller than ";
                 FInt _MAX_CHUNK_SIZE])]
  else [].

Definition closing_events (api : Api) (name : string) (verbose : bool)
    (totals : Z * Z) : list event :=
  EvClose :: (if verbose then (report api name totals.1 totals.2 []).1 else []).

(** The bulk call that uploads the records [chunk] converted by [conv]. *)
Definition call_for (name : string) (bulk_cls : bulk_class) (tags metadata : option dict)
    (conv : pyobj → CreationRecord) (chunk : list pyobj) : bulk_call CreationRecord :=
  {| bc_name := name;
     bc_body := {| bd_class := bulk_cls; bd_tags := or_empty tags;
                   bd_metadata := or_empty metadata;
                   bd_records := map conv chunk |} |}.

(** The call the loop makes at the index [i], for [records[i : i + C]]. *)
Definition call_at (name : string) (bulk_cls : bulk_class) (tags metadata : option dict)
    (conv : pyobj → CreationRecord) (records : list pyobj) (C : Z) (i : Z)
    : bulk_call CreationRecord :=
  call_for name bulk_cls tags metadata conv (slice records i (i + C)).

(** Every record of [records[i : i + C]] is converted, to its image by
    [conv]. *)
Definition converted_at (creation_cls : creation_class) (conv : pyobj → CreationRecord)
    (records : list pyobj) (C : Z) (i : Z) : Prop :=
  ∀ o, o ∈ slice records i (i + C) → from_client creation_cls o = Returns (conv o).

(** The calls that upload a batch chunk by chunk, in order: one call per
    chunk, [n_chunks] of them. *)
Definition chunk_calls (name : string) (bulk_cls : bulk_class) (tags metadata : option dict)
    (conv : pyobj → CreationRecord) (records : list pyobj) (C : Z)
    : list (bulk_call CreationRecord) :=
  map (λ i, call_for name bulk_cls tags metadata conv (chunk_at records C i))
      (seq 0 (Z.to_nat (n_chunks (Z.of_nat (length records)) C))).

(** The transport client answers the calls [cs], made one after the other
    after the calls [h], with the responses [rs]. *)
Fixpoint served (h cs : list (bulk_call CreationRecord)) (rs : list bulk_parsed) : Prop :=
  match cs, rs with
  | [], [] => True
  | c :: cs', r :: rs' => async_bulk h c = Returns r ∧ served (h ++ [c]) cs' rs'
  | _, _ => False
  end.

(** The events of the loop for the calls [cs], when every call is answered. *)
Definition upload_events (cs : list (bulk_call CreationRecord)) : list event :=
  cs ≫= (λ c, [EvBulk c; EvUpdate (length (bd_records (bc_body c)))]).

(** Number of records of each call. *)
Definition call_sizes (cs : list (bulk_call CreationRecord)) : list nat :=
  map (λ c, length (bd_records (bc_body c))) cs.

(** The error of [log_async] for a name that is empty or does not match. *)
Definition name_error (name : string) : exn :=
  if bool_decide (name = "") then empty_name_error else name_pattern_error name.

(** The loops started and the loops that received a submission, oldest
    first. *)
Definition loops_started (tr : list caller_event) : list nat :=
  omap (λ ev, match ev with EvLoopStart l => Some l | _ => None end) tr.

Definition submit_loops (tr : list caller_event) : list nat :=
  omap (λ ev, match ev with EvSubmit _ l => Some l | _ => None end) tr.

(** The state of a process that has not built any [Api] yet, or whose
    [Api] objects all hold the one loop that was started. *)
Definition one_loop (p : process) : Prop :=
  match __LOOP__ p with
  | None =>
      loops_started (caller_trace p) = [] ∧ submit_loops (caller_trace p) = []
      ∧ apis p = [] ∧ __ACTIVE_API__ p = None
  | Some l =>
      loops_started (caller_trace p) = [l]
      ∧ Forall (λ l', l' = l) (submit_loops (caller_trace p))
      ∧ apis p ≠ []
      ∧ Forall (λ a, agent_loop a = l) (apis p)
      ∧ (∀ a, __ACTIVE_API__ p = Some a → agent_loop a = l)
  end.

(** A call of [Api.log] from the state [p] fails with an input error
    before any submission and without any bulk call. *)
Definition fails_before_submission (p : process) (out : process * outcome log_result)
    : Prop :=
  ∃ e, out.2 = Raises e ∧ exc_type e = InputValueError
       ∧ caller_trace out.1 = caller_trace p
       ∧ bulk_calls (worker_trace out.1) = bulk_calls (worker_trace p).

(** A run fails with an input error and the trace has no bulk call. *)
Definition input_error_without_call {A} (run : list event * outcome A) : Prop :=
  ∃ e, run.2 = Raises e ∧ exc_type e = InputValueError ∧ bulk_calls run.1 = [].

End Vocabulary.

(** ** A reference environment, for running the client on examples *)

Module Reference.

Global Instance pytype_eq_dec : EqDecision pytype.
Proof. solve_decision. Defined.

(** The record class a creation class converts. *)
Definition source_class (c : creation_class) : pytype :=
  match c with
  | CreationTextClassificationRecord => TextClassificationRecord
  | CreationTokenClassificationRecord => TokenClassificationRecord
  | CreationText2TextRecord => Text2TextRecord
  end.

(** A conversion that accepts exactly the records of its own variant, the
    strictest behaviour a [from_client] can have. *)
Definition strict_from_client (c : creation_class) (o : pyobj)
    : outcome (creation_class * pyobj) :=
  if bool_decide (ob_type o = source_class c) then Returns (c, o)
  else Raises {| exc_type := ExternalError "AttributeError";
                 exc_msg := [FType (ob_type o); Lit " object has no such field"] |}.

Definition name_char (a : Ascii.ascii) : bool :=
  let n := Ascii.nat_of_ascii a in
  ((48 <=? n) && (n <=? 57) || (65 <=? n) && (n <=? 90)
   || (97 <=? n) && (n <=? 122) || (n =? 95) || (n =? 45))%nat.

Fixpoint name_tail (s : string) : bool :=
  match s with
  | EmptyString => true
  | String a EmptyString => name_char a || (Ascii.nat_of_ascii a =? 10)%nat
  | String a s' => name_char a && name_tail s'
  end.

(** Modelled from the spec: [DATASET_NAME_REGEX_PATTERN] is imported from
    [rubrix._constants] and is not available; the naming contract gives the
    pattern as one or more alphanumerics, dashes or underscores between
    [^] and [$].  [re.match] is followed: [$] also matches before one
    final newline. *)
Definition spec_name_matches (s : string) : bool :=
  match s with
  | EmptyString => false
  | String a s' => name_char a && name_tail s'
  end.

Definition transport_error : exn :=
  {| exc_type := ExternalError "httpx.ConnectError"; exc_msg := [Lit "connection refused"] |}.

(** A server that stores every record it receives; with [fail_at = Some k]
    the call made after [k] earlier calls is refused. *)
Definition counting_bulk (fail_at : option nat)
    (h : list (bulk_call (creation_class * pyobj)))
    (c : bulk_call (creation_class * pyobj)) : outcome bulk_parsed :=
  if bool_decide (fail_at = Some (length h)) then Raises transport_error
  else Returns {| bp_processed := Z.of_nat (length (bd_records (bc_body c)));
                  bp_failed := 0 |}.

Definition local_session (args : init_args) : outcome session :=
  Returns {| s_base_url := default "http://localhost:6900" (arg_api_url args);
             s_headers := ∅; s_username := "rubrix" |}.

Definition env (fail_at : option nat) : Collaborators :=
  {| CreationRecord := creation_class * pyobj;
     from_client := strict_from_client;
     name_matches := spec_name_matches;
     async_bulk := counting_bulk fail_at;
     RUBRIX_WORKSPACE_HEADER_NAME := "X-Rubrix-Workspace";
     connect := local_session |}.

Definition api0 : Api :=
  {| base_url := "http://localhost:6900"; headers := ∅; username := "rubrix";
     agent_loop := 0 |}.

(** [n] records of class [t], numbered from [start]. *)
Definition batch (t : pytype) (start n : nat) : list pyobj :=
  map (λ k, {| ob_type := t; ob_data := k |}) (seq start n).

(** The conversion of [strict_from_client] on the records it accepts. *)
Definition to_creation (c : creation_class) (o : pyobj) : creation_class * pyobj :=
  (c, o).

(** The answer of [counting_bulk] to a call of [n] records. *)
Definition answer (n : nat) : bulk_parsed :=
  {| bp_processed := Z.of_nat n; bp_failed := 0 |}.

Definition kwargs0 (records : records_arg) (name : string) (chunk_size : Z) : log_kwargs :=
  {| kw_records := records; kw_name := name; kw_tags := None; kw_metadata := None;
     kw_chunk_size := chunk_size; kw_verbose := false |}.

End Reference.

(** ** The rest of the client: workspaces, construction, loading, metrics *)

(** [self._user]: the answer of [users_api.whoami]. *)
Record User := { user_username : string; user_workspaces : option (list string) }.

(** What [Api.__init__] reads from outside the client: [os.environ], the
    constant [DEFAULT_API_KEY], the headers of a new
    [AuthenticatedClient(base_url, token, timeout)] and the answer of
    [users_api.whoami] for that client. *)
Class Host := {
  environ : dict;
  DEFAULT_API_KEY : string;
  client_headers : string → string → Z → dict;
  whoami : string → string → Z → outcome User
}.

(** [raise Exception(message)] *)
Definition plain_exception (m : message) : exn :=
  {| exc_type := ExternalError "Exception"; exc_msg := m |}.

Definition newline : string := String (Ascii.ascii_of_nat 10) EmptyString.

(** The character [/]. *)
Definition slash : Ascii.ascii := Ascii.ascii_of_nat 47.

(** The [re.sub] of line 137, which replaces the pattern of a slash
    followed by [$] with nothing: the slash that ends the string, or that
    stands before the newline that ends it, is removed. *)
Fixpoint sub_trailing_slash (s : string) : string :=
  match s with
  | EmptyString => EmptyString
  | String a rest =>
      if Ascii.eqb a slash && (String.eqb rest "" || String.eqb rest newline)
      then rest
      else String a (sub_trailing_slash rest)
  end.

(** [a or b] for an optional string [a]: [None] and the empty string are
    falsy. *)
Definition or_else {B} (a : option string) (inj : string → B) (b : B) : B :=
  match a with
  | Some s => if bool_decide (s = "") then b else inj s
  | None => b
  end.

Section Construction.
Context `{Collaborators} `{Host}.

(** [os.getenv(key, default)] *)
Definition getenv (key default_value : string) : string :=
  default default_value (environ !! key).

(** [Api.set_workspace], on the headers of [self._client] for the user
    [self._user]; the workspace that [self.get_workspace()] reads is the
    header, or the user name when the header is absent. *)
Definition set_workspace (user : User) (workspace : option string) (hdrs : dict)
    : outcome dict :=
  match workspace with
  | None => Raises (plain_exception [Lit "Must provide a workspace"])
  | Some w =>
      if bool_decide
           (w ≠ default (user_username user) (hdrs !! RUBRIX_WORKSPACE_HEADER_NAME))
      then
        if bool_decide (w = user_username user) then
          Returns (<[RUBRIX_WORKSPACE_HEADER_NAME := w]>
                     (delete RUBRIX_WORKSPACE_HEADER_NAME hdrs))
        else if match user_workspaces user with
                | Some ws => bool_decide (w ∉ ws)
                | None => false
                end
        then Raises (plain_exception [Lit "Wrong provided workspace "; FStr w])
        else Returns (<[RUBRIX_WORKSPACE_HEADER_NAME := w]> hdrs)
      else Returns hdrs
  end.

(** Lines 135-139 of [Api.__init__]: the settings, from the arguments or
    from the environment. *)
Definition resolve_api_url (args : init_args) : string :=
  sub_trailing_slash
    (or_else (arg_api_url args) id (getenv "RUBRIX_API_URL" "http://localhost:6900")).

Definition resolve_api_key (args : init_args) : string :=
  or_else (arg_api_key args) id (getenv "RUBRIX_API_KEY" DEFAULT_API_KEY).

Definition resolve_workspace (args : init_args) : option string :=
  or_else (arg_workspace args) Some (environ !! "RUBRIX_WORKSPACE").

(** Lines 135-147 of [Api.__init__]: the settings, the client, the user,
    then [set_workspace] when a workspace is given. *)
Definition Api_connect (args : init_args) : outcome session :=
  let api_url := resolve_api_url args in
  let api_key := resolve_api_key args in
  let workspace := resolve_workspace args in
  let hdrs := client_headers api_url api_key (arg_timeout args) in
  match whoami api_url api_key (arg_timeout args) with
  | Raises e => Raises e
  | Returns user =>
      match match workspace with
            | Some w => set_workspace user (Some w) hdrs
            | None => Returns hdrs
            end with
      | Raises e => Raises e
      | Returns hdrs' =>
          Returns {| s_base_url := api_url; s_headers := hdrs';
                     s_username := user_username user |}
      end
  end.

End Construction.

(** Identifiers of records: [int] or [str]. *)
Inductive record_id :=
  | IdInt (z : Z)
  | IdStr (s : string).

(** [str(id)] *)
Definition str_of_id (i : record_id) : string :=
  match i with
  | IdInt z => pretty z
  | IdStr s => s
  end.

(** [a < b] on identifiers: integers by value, strings by code points, and
    a [TypeError] between an integer and a string. *)
Definition id_lt (a b : record_id) : outcome bool :=
  match a, b with
  | IdInt x, IdInt y => Returns (x <? y)
  | IdStr s, IdStr t => Returns (String.ltb s t)
  | _, _ => Raises {| exc_type := TypeError;
                      exc_msg := [Lit "'<' not supported between instances of 'int' and 'str'"] |}
  end.

(** [a < b] on strings. *)
Definition str_lt (a b : string) : outcome bool := Returns (String.ltb a b).

(** One step of a stable sort: [x] is placed before the first element that
    is not smaller than it. *)
Fixpoint insert_by {A K} (lt : K → K → outcome bool) (key : A → K) (x : A)
    (l : list A) : outcome (list A) :=
  match l with
  | [] => Returns [x]
  | y :: l' =>
      match lt (key y) (key x) with
      | Raises e => Raises e
      | Returns false => Returns (x :: l)
      | Returns true =>
          match insert_by lt key x l' with
          | Raises e => Raises e
          | Returns r => Returns (y :: r)
          end
      end
  end.

(** [sorted(l, key=key)]: the stable sort of [l] by [key], with a
    comparison of keys that may raise. *)
Fixpoint sorted {A K} (lt : K → K → outcome bool) (key : A → K) (l : list A)
    : outcome (list A) :=
  match l with
  | [] => Returns []
  | x :: l' =>
      match sorted lt key l' with
      | Raises e => Raises e
      | Returns s => insert_by lt key x s
      end
  end.

(** [TaskType], with the tasks the client does not load. *)
Inductive TaskType :=
  | text_classification
  | token_classification
  | text2text
  | other_task (name : string).

Inductive task_api := text_classification_api | token_classification_api | text2text_api.

Inductive query_class := TextClassificationQuery | TokenClassificationQuery | Text2TextQuery.

Inductive dataset_class :=
  | DatasetForTextClassification
  | DatasetForTokenClassification
  | DatasetForText2Text.

(** A record of a dataset as [sdk_record.to_client()] gives it: its
    identifier and its content. *)
Record loaded_record := { lr_id : record_id; lr_data : nat }.

(** [dataset_class(records)] *)
Record Dataset := { ds_class : dataset_class; ds_records : list loaded_record }.

(** [request_class(ids=ids, query_text=query)] *)
Record data_request := {
  rq_class : query_class;
  rq_ids : option (list record_id);
  rq_query_text : option string
}.

(** [MetricInfo]: its identifier and the rest of its fields. *)
Record MetricInfo := { mi_id : string; mi_fields : nat }.

(** [MetricResults]: the fields of the metric and the results. *)
Record MetricResults := { mr_metric : MetricInfo; mr_results : nat }.

(** The arguments of a computation of a metric, passed on as they are. *)
Record metric_args := {
  ma_query : option string;
  ma_interval : option Z;
  ma_size : option Z
}.

(** What the calling thread does through the client outside uploads. *)
Inductive server_event :=
  | EvWarn (category : string) (m : message)
  | EvGetDataset (name : string)
  | EvData (api : task_api) (name : string) (request : data_request)
      (limit : option Z) (id_from : option string)
  | EvDatasetMetrics (name : string) (task : TaskType)
  | EvComputeMetric (name : string) (task : TaskType) (metric : string)
      (args : metric_args).

(** The requests of a trace: everything but the warnings. *)
Definition requests (tr : list server_event) : list server_event :=
  omap (λ ev, match ev with EvWarn _ _ => None | _ => Some ev end) tr.

(** The server behind [datasets_api], the [data] functions of the task
    apis (with the conversion of the records to client records) and
    [metrics_api]; an answer may depend on the requests made before. *)
Class Server := {
  get_dataset : list server_event → string → outcome TaskType;
  get_dataset_data : list server_event → task_api → string → data_request
                     → option Z → option string → outcome (list loaded_record);
  get_dataset_metrics : list server_event → string → TaskType
                        → outcome (list MetricInfo);
  compute_metric_results : list server_event → string → TaskType → string
                           → metric_args → outcome nat
}.

(** [task_config] of [Api.load]. *)
Definition task_config (task : TaskType)
    : option (task_api * query_class * dataset_class) :=
  match task with
  | text_classification =>
      Some (text_classification_api, TextClassificationQuery,
            DatasetForTextClassification)
  | token_classification =>
      Some (token_classification_api, TokenClassificationQuery,
            DatasetForTokenClassification)
  | text2text => Some (text2text_api, Text2TextQuery, DatasetForText2Text)
  | other_task _ => None
  end.

Section Loading.
Context `{Server}.

(** A call of the client outside uploads: it extends the trace of what was
    asked. *)
Definition Sv (A : Type) : Type := stexn (list server_event) A.

Definition ask {A} (ev : server_event) (answer : list server_event → outcome A)
    : Sv A :=
  λ tr, (tr ++ [ev], answer (requests tr)).

Definition as_pandas_warning : message :=
  [Lit "The argument `as_pandas` is deprecated and will be removed in a future version. ";
   Lit "Please adapt your code accordingly. "].

Definition as_pandas_error : exn :=
  {| exc_type := ValueError;
     exc_msg := [Lit "The argument `as_pandas` is deprecated and will be removed in a future version. ";
                 Lit "Please adapt your code accordingly. ";
                 Lit "If you want a pandas DataFrame do `rb.load('my_dataset').to_pandas()`."] |}.

Definition unsupported_task_error (task : TaskType) : exn :=
  {| exc_type := ValueError;
     exc_msg := [Lit "Load method not supported for the '";
                 FStr (match task with
                       | text_classification => "TaskType.text_classification"
                       | token_classification => "TaskType.token_classification"
                       | text2text => "TaskType.text2text"
                       | other_task name => name
                       end);
                 Lit "' task. Supported tasks: ";
                 Lit "[TaskType.text_classification, TaskType.token_classification, TaskType.text2text]"] |}.

(** Lines 504-509: the records sorted by identifier, and by the text of
    the identifier when identifiers cannot be compared. *)
Definition sort_by_id (records : list loaded_record) : Sv (list loaded_record) :=
  try_except (lift (sorted id_lt lr_id records))
    (λ c, match c with TypeError => true | _ => false end)
    (λ _, lift (sorted str_lt (λ x, str_of_id (lr_id x)) records)).

(** [Api.load] *)
Definition load (name : string) (query : option string)
    (ids : option (list record_id)) (limit : option Z) (id_from : option string)
    (as_pandas : option bool) : Sv Dataset :=
  match as_pandas with
  | Some false => (λ tr, (tr ++ [EvWarn "FutureWarning" as_pandas_warning], Returns ()))
  | Some true => raise as_pandas_error
  | None => ret ()
  end ;;;
  task <- ask (EvGetDataset name) (λ tr, get_dataset tr name) ;;
  match task_config task with
  | None => raise (unsupported_task_error task)
  | Some (api, request_class, dataset_cls) =>
      let request := {| rq_class := request_class; rq_ids := ids;
                        rq_query_text := query |} in
      records <- ask (EvData api name request limit id_from)
                   (λ tr, get_dataset_data tr api name request limit id_from) ;;
      records_sorted_by_id <- sort_by_id records ;;
      ret {| ds_class := dataset_cls; ds_records := records_sorted_by_id |}
  end.

(** [Api.dataset_metrics] *)
Definition dataset_metrics (name : string) : Sv (list MetricInfo) :=
  task <- ask (EvGetDataset name) (λ tr, get_dataset tr name) ;;
  ask (EvDatasetMetrics name task) (λ tr, get_dataset_metrics tr name task).

(** [Api.get_metric]: the first metric of the dataset with the identifier,
    [None] when the loop ends without one. *)
Definition get_metric (name metric : string) : Sv (option MetricInfo) :=
  metrics <- dataset_metrics name ;;
  ret (List.find (λ m, String.eqb (mi_id m) metric) metrics).

Definition metric_not_found (metric : string) : exn :=
  {| exc_type := ExternalError "AssertionError";
     exc_msg := [Lit "Metric "; FStr metric; Lit " not found !!!"] |}.

(** [Api.compute_metric] *)
Definition compute_metric (name metric : string) (args : metric_args)
    : Sv MetricResults :=
  task <- ask (EvGetDataset name) (λ tr, get_dataset tr name) ;;
  metric_ <- get_metric name metric ;;
  match metric_ with
  | None => raise (metric_not_found metric)
  | Some info =>
      results <- ask (EvComputeMetric name task metric args)
                   (λ tr, compute_metric_results tr name task metric args) ;;
      ret {| mr_metric := info; mr_results := results |}
  end.

End Loading.

(** *** Vocabulary of the properties of the rest of the client *)

(** The identifiers of a list of records hold an integer, a string. *)
Definition has_int (l : list loaded_record) : bool :=
  existsb (λ x, match lr_id x with IdInt _ => true | IdStr _ => false end) l.

Definition has_str (l : list loaded_record) : bool :=
  existsb (λ x, match lr_id x with IdStr _ => true | IdInt _ => false end) l.

(** [a < b] on the identifiers of two records when it does not raise. *)
Definition id_ltb (x y : loaded_record) : bool :=
  match lr_id x, lr_id y with
  | IdInt a, IdInt b => a <? b
  | IdStr s, IdStr t => String.ltb s t
  | _, _ => false
  end.

(** [x] does not come after [y]: the order [sorted] establishes, on
    identifiers of one kind and on their texts. *)
Definition id_le (x y : loaded_record) : Prop :=
  match lr_id x, lr_id y with
  | IdInt a, IdInt b => a ≤ b
  | IdStr s, IdStr t => String.ltb t s = false
  | _, _ => False
  end.

Definition str_id_le (x y : loaded_record) : Prop :=
  String.ltb (str_of_id (lr_id y)) (str_of_id (lr_id x)) = false.

(** The advance of the progress bar over a trace. *)
Definition progress `{Collaborators} (tr : list event) : nat :=
  sum_list (omap (λ ev, match ev with EvUpdate n => Some n | _ => None end) tr).

(** The records of the calls of a trace, in the order they were sent. *)
Definition uploaded `{Collaborators} (tr : list event) : list CreationRecord :=
  concat (map (λ c, bd_records (bc_body c)) (bulk_calls tr)).

(** A bulk call for the dataset [name] with the given tags and metadata
    that holds at least one record and at most [C]. *)
Definition well_formed_call `{Collaborators} (name : string) (tags metadata : option dict)
    (C : Z) (c : bulk_call CreationRecord) : Prop :=
  bc_name c = name
  ∧ bd_tags (bc_body c) = or_empty tags
  ∧ bd_metadata (bc_body c) = or_empty metadata
  ∧ 1 ≤ Z.of_nat (length (bd_records (bc_body c))) ≤ C.

(** A second reference environment: a host and a server. *)
Module ReferenceHost.

Definition host : Host :=
  {| environ := {["RUBRIX_API_URL" := "http://rubrix.example/"]};
     DEFAULT_API_KEY := "rubrix.apikey";
     client_headers := λ _ _ _, ∅;
     whoami := λ _ _ _, Returns {| user_username := "rubrix";
                                   user_workspaces := Some ["rubrix"; "team"] |} |}.

Definition records0 : list loaded_record :=
  [ {| lr_id := IdInt 10; lr_data := 0 |};
    {| lr_id := IdStr "a"; lr_data := 1 |};
    {| lr_id := IdInt 9; lr_data := 2 |} ].

Definition server : Server :=
  {| get_dataset := λ _ name,
       if String.eqb name "legacy" then Returns (other_task "MultiTask")
       else Returns text_classification;
     get_dataset_data := λ _ _ _ _ _ _, Returns records0;
     get_dataset_metrics := λ _ _ _,
       Returns [ {| mi_id := "F1"; mi_fields := 0 |};
                 {| mi_id := "text_length"; mi_fields := 1 |} ];
     compute_metric_results := λ _ _ _ _ _, Returns 7%nat |}.

Definition args0 : init_args :=
  {| arg_api_url := Some "http://localhost:9090/"; arg_api_key := None;
     arg_workspace := Some "team"; arg_timeout := 60 |}.

Definition no_args : metric_args :=
  {| ma_query := None; ma_interval := None; ma_size := None |}.

(** The reference environment of the uploads, with the connection of
    [Api.__init__] made on [host]. *)
Definition env_on_host : Collaborators :=
  {| CreationRecord := creation_class * pyobj;
     from_client := Reference.strict_from_client;
     name_matches := Reference.spec_name_matches;
     async_bulk := Reference.counting_bulk None;
     RUBRIX_WORKSPACE_HEADER_NAME := "X-Rubrix-Workspace";
     connect := Api_connect (H := Reference.env None) (H0 := host) |}.

(** The reference environment of the uploads on a host that cannot be
    reached. *)
Definition unreachable : exn :=
  {| exc_type := ExternalError "httpx.ConnectError";
     exc_msg := [Lit "connection refused"] |}.

Definition env_offline : Collaborators :=
  {| CreationRecord := creation_class * pyobj;
     from_client := Reference.strict_from_client;
     name_matches := Reference.spec_name_matches;
     async_bulk := Reference.counting_bulk None;
     RUBRIX_WORKSPACE_HEADER_NAME := "X-Rubrix-Workspace";
     connect := λ _, Raises unreachable |}.

Definition user0 : User :=
  {| user_username := "rubrix"; user_workspaces := Some ["rubrix"; "team"] |}.

End ReferenceHost.

(** ** Facts on the Python primitives *)

Lemma Zsum_app (l k : list Z) : Zsum (l ++ k) = Zsum l + Zsum k.
Proof.
  induction l as [|x l IH]; simpl; [done|]. rewrite IH. lia.
Qed.

Lemma slice_subseteq {A} (l : list A) (lo hi : Z) : slice l lo hi ⊆ l.
Proof.
  unfold slice. etrans; [apply subseteq_take | apply subseteq_drop].
Qed.

(** A slice with bounds inside the list has the length asked for. *)
Lemma slice_length {A} (l : list A) (lo hi : Z) :
  0 ≤ lo → lo ≤ hi →
  length (slice l lo hi)
  = Z.to_nat (Z.min hi (Z.of_nat (length l)) - Z.min lo (Z.of_nat (length l))).
Proof.
  intros Hlo Hhi. unfold slice, slice_bound.
  rewrite length_take, length_drop.
  destruct (Z.ltb_spec lo 0); [lia|].
  destruct (Z.ltb_spec hi 0); [lia|]. lia.
Qed.

(** The ceiling of [N / C] is [(N - 1) / C + 1]. *)
Lemma n_chunks_alt (N C : Z) : 0 < C → n_chunks N C = (N - 1) / C + 1.
Proof.
  intros HC. unfold n_chunks.
  replace (N + C - 1) with (N - 1 + 1 * C) by lia.
  rewrite Z.div_add by lia. done.
Qed.

(** [n_chunks] is the ceiling: the least [q] with [N ≤ q * C]. *)
Lemma n_chunks_ceiling (N C : Z) :
  0 < C → N ≤ n_chunks N C * C ∧ (n_chunks N C - 1) * C < N.
Proof.
  intros HC. rewrite n_chunks_alt by done.
  pose proof (Z.div_mod (N - 1) C ltac:(lia)) as Hdm.
  pose proof (Z.mod_pos_bound (N - 1) C HC) as Hm. nia.
Qed.

(** [range(0, N, C)] for a positive step lists the multiples of [C] below
    [N]: one index per chunk. *)
Lemma range_positive_step (N C : Z) :
  0 < N → 0 < C →
  range 0 N C
  = Returns (map (λ k : nat, Z.of_nat k * C) (seq 0 (Z.to_nat (n_chunks N C)))).
Proof.
  intros HN HC. unfold range, range_length.
  destruct (Z.eqb_spec C 0); [lia|].
  destruct (Z.ltb_spec 0 C); [|lia].
  destruct (Z.ltb_spec 0 N); [|lia].
  rewrite n_chunks_alt by done.
  replace (N - 0 - 1) with (N - 1) by lia. done.
Qed.

(** [range(0, N, C)] for a negative step and a non-negative [N] is empty. *)
Lemma range_negative_step (N C : Z) : 0 ≤ N → C < 0 → range 0 N C = Returns [].
Proof.
  intros HN HC. unfold range, range_length.
  destruct (Z.eqb_spec C 0); [lia|].
  destruct (Z.ltb_spec 0 C); [lia|].
  destruct (Z.ltb_spec N 0); [lia|]. done.
Qed.

(** A slice that ends inside a prefix of the list holds elements of the
    prefix only. *)
Lemma slice_in_prefix {A} (l1 l2 : list A) (lo hi : Z) :
  0 ≤ lo → lo ≤ hi → hi ≤ Z.of_nat (length l1) → slice (l1 ++ l2) lo hi ⊆ l1.
Proof.
  intros Hlo Hle Hhi x Hx. unfold slice, slice_bound in Hx.
  rewrite length_app in Hx.
  destruct (Z.ltb_spec lo 0); [lia|].
  apply elem_of_take in Hx as (i & Hi & Hlt).
  rewrite lookup_drop in Hi.
  destruct (Z.ltb_spec hi 0); [lia|].
  rewrite lookup_app_l in Hi by lia.
  by apply list_elem_of_lookup_2 in Hi.
Qed.

(** A slice that starts inside a prefix and ends after it holds the end of
    the prefix, then the element that follows the prefix. *)
Lemma slice_across_prefix {A} (l1 l2 : list A) (x : A) (lo hi : Z) :
  0 ≤ lo → lo ≤ Z.of_nat (length l1) → Z.of_nat (length l1) < hi →
  ∃ l3, slice (l1 ++ x :: l2) lo hi = drop (Z.to_nat lo) l1 ++ x :: l3.
Proof.
  intros Hlo Hin Hhi. unfold slice, slice_bound.
  rewrite length_app. simpl length.
  destruct (Z.ltb_spec lo 0); [lia|].
  destruct (Z.ltb_spec hi 0); [lia|].
  rewrite (Z.min_l lo) by lia.
  rewrite drop_app_le by lia.
  rewrite take_app_ge by (rewrite length_drop; lia).
  rewrite length_drop.
  destruct (Z.to_nat _ - _)%nat as [|m] eqn:Hm; [lia|].
  simpl. eauto.
Qed.

Lemma comprehension_returns {A B} (f : A → outcome B) (g : A → B) (l : list A) :
  (∀ x, x ∈ l → f x = Returns (g x)) → comprehension f l = Returns (map g l).
Proof.
  induction l as [|x l IH]; intros Hf; simpl; [done|].
  rewrite (Hf x) by set_solver. rewrite IH by set_solver. done.
Qed.

Lemma comprehension_raises {A B} (f : A → outcome B) (g : A → B)
    (l1 l2 : list A) (x : A) (e : exn) :
  (∀ y, y ∈ l1 → f y = Returns (g y)) → f x = Raises e →
  comprehension f (l1 ++ x :: l2) = Raises e.
Proof.
  induction l1 as [|y l1 IH]; intros Hf Hx; simpl.
  - by rewrite Hx.
  - rewrite (Hf y) by set_solver. rewrite IH by set_solver. done.
Qed.

Lemma for_each_app {S A B} (l k : list A) (acc : B) (body : A → B → stexn S B) (s : S) :
  for_each (l ++ k) acc body s
  = bind (for_each l acc body) (λ acc', for_each k acc' body) s.
Proof.
  revert acc s. induction l as [|x l IH]; intros acc s; simpl; [done|].
  unfold bind in *.
  destruct (body x acc s) as [s' [acc'|e]]; [|done].
  rewrite IH. done.
Qed.

(** ** Facts on the upload coroutine *)

Section CoroutineFacts.
Context `{Collaborators}.

Lemma bulk_calls_app (t1 t2 : list event) :
  bulk_calls (t1 ++ t2) = bulk_calls t1 ++ bulk_calls t2.
Proof. apply omap_app. Qed.

Lemma bulk_calls_upload_events (cs : list (bulk_call CreationRecord)) :
  bulk_calls (upload_events cs) = cs.
Proof.
  induction cs as [|c cs IH]; [done|].
  change (upload_events (c :: cs))
    with ([EvBulk c; EvUpdate (length (bd_records (bc_body c)))] ++ upload_events cs).
  rewrite bulk_calls_app, IH. done.
Qed.

Lemma bulk_calls_warning_events (C : Z) : bulk_calls (warning_events C) = [].
Proof. unfold warning_events. by destruct (_ <? _). Qed.

Lemma bulk_calls_closing_events api name verbose totals :
  bulk_calls (closing_events api name verbose totals) = [].
Proof. unfold closing_events. by destruct verbose. Qed.

Lemma report_trace api name p f (tr : list event) :
  report api name p f tr = (tr ++ (report api name p f []).1, Returns ()).
Proof.
  unfold report, bind, emit. simpl. by rewrite <- app_assoc.
Qed.

Section Chunk.
Variables (records : list pyobj) (name : string) (tags metadata : option dict)
  (C : Z) (bulk_cls : bulk_class) (creation_cls : creation_class)
  (conv : pyobj → CreationRecord).

Local Abbreviation call_at := (call_at name bulk_cls tags metadata conv records C).
Local Abbreviation converted_at := (converted_at creation_cls conv records C).
Local Abbreviation body :=
  (upload_chunk records name (or_empty tags) (or_empty metadata) C bulk_cls
     creation_cls).

Lemma upload_chunk_returns (i : Z) (acc : Z * Z) (tr : list event) (r : bulk_parsed) :
  converted_at i →
  async_bulk (bulk_calls tr) (call_at i) = Returns r →
  body i acc tr
  = (tr ++ upload_events [call_at i],
     Returns (acc.1 + bp_processed r, acc.2 + bp_failed r)).
Proof.
  intros Hc Hr. unfold upload_chunk, bind, lift, await_async_bulk, emit, ret.
  rewrite (comprehension_returns _ conv) by done.
  fold (call_for name bulk_cls tags metadata conv (slice records i (i + C))).
  fold (call_at i). rewrite Hr.
  unfold upload_events. simpl. rewrite length_map, <- app_assoc. done.
Qed.

Lemma upload_chunk_transport_raises (i : Z) (acc : Z * Z) (tr : list event) (e : exn) :
  converted_at i →
  async_bulk (bulk_calls tr) (call_at i) = Raises e →
  body i acc tr = (tr ++ [EvBulk (call_at i)], Raises e).
Proof.
  intros Hc Hr. unfold upload_chunk, bind, lift, await_async_bulk, emit, ret.
  rewrite (comprehension_returns _ conv) by done.
  fold (call_for name bulk_cls tags metadata conv (slice records i (i + C))).
  fold (call_at i). by rewrite Hr.
Qed.

Lemma upload_chunk_conversion_raises (i : Z) (acc : Z * Z) (tr : list event) (e : exn) :
  comprehension (from_client creation_cls) (slice records i (i + C)) = Raises e →
  body i acc tr = (tr, Raises e).
Proof.
  intros He. unfold upload_chunk, bind, lift. by rewrite He.
Qed.

(** A loop whose calls are all answered returns the sums of the answers. *)
Lemma for_each_served (indices : list Z) (acc : Z * Z) (tr : list event)
    (rs : list bulk_parsed) :
  Forall converted_at indices →
  served (bulk_calls tr) (map call_at indices) rs →
  for_each indices acc body tr
  = (tr ++ upload_events (map call_at indices),
     Returns (acc.1 + Zsum (bp_processed <$> rs), acc.2 + Zsum (bp_failed <$> rs))).
Proof.
  revert acc tr rs. induction indices as [|i indices IH]; intros acc tr rs Hc Hs.
  - destruct rs; [|done]. simpl. unfold ret, upload_events. simpl.
    rewrite app_nil_r. do 2 f_equal. destruct acc; simpl; f_equal; lia.
  - destruct rs as [|r rs]; [done|]. simpl in Hs. destruct Hs as [Hr Hs].
    apply Forall_cons in Hc as [Hi Hc].
    simpl. unfold bind. rewrite (upload_chunk_returns i acc tr r Hi Hr).
    rewrite (IH _ _ rs).
    + unfold upload_events. simpl. rewrite <- app_assoc. simpl.
      by rewrite !Z.add_assoc.
    + done.
    + rewrite bulk_calls_app, bulk_calls_upload_events. done.
Qed.

(** A loop whose call number [length before] is refused stops there. *)
Lemma for_each_refused (before after : list Z) (i : Z) (acc : Z * Z)
    (tr : list event) (rs : list bulk_parsed) (e : exn) :
  Forall converted_at (before ++ [i]) →
  served (bulk_calls tr) (map call_at before) rs →
  async_bulk (bulk_calls tr ++ map call_at before) (call_at i) = Raises e →
  for_each (before ++ i :: after) acc body tr
  = (tr ++ upload_events (map call_at before) ++ [EvBulk (call_at i)], Raises e).
Proof.
  intros Hc Hs He. apply Forall_app in Hc as [Hb Hi].
  apply Forall_inv in Hi.
  rewrite for_each_app. unfold bind at 1.
  rewrite (for_each_served _ _ _ rs Hb Hs). simpl. unfold bind.
  rewrite (upload_chunk_transport_raises _ _ _ e Hi).
  - by rewrite <- app_assoc.
  - by rewrite bulk_calls_app, bulk_calls_upload_events.
Qed.

(** A loop that meets a record it cannot convert stops before the call of
    that record's chunk. *)
Lemma for_each_unconverted (before after : list Z) (i : Z) (acc : Z * Z)
    (tr : list event) (rs : list bulk_parsed) (e : exn) :
  Forall converted_at before →
  served (bulk_calls tr) (map call_at before) rs →
  comprehension (from_client creation_cls) (slice records i (i + C)) = Raises e →
  for_each (before ++ i :: after) acc body tr
  = (tr ++ upload_events (map call_at before), Raises e).
Proof.
  intros Hb Hs He. rewrite for_each_app. unfold bind at 1.
  rewrite (for_each_served _ _ _ rs Hb Hs). simpl. unfold bind.
  by rewrite (upload_chunk_conversion_raises _ _ _ e).
Qed.

End Chunk.

(** *** The phases of [log_async] *)

Lemma bind_run {S A B} (m : stexn S A) (k : A → stexn S B) (s : S) :
  bind m k s
  = match m s with
    | (s', Returns a) => k a s'
    | (s', Raises e) => (s', Raises e)
    end.
Proof. done. Qed.

Ltac enter_log_async Hname Hmatch :=
  unfold log_async;
  rewrite (bool_decide_eq_false_2 _ Hname), Hmatch;
  change (negb true) with false; cbv iota.

Lemma warning_trace (C : Z) (tr : list event) :
  (if _MAX_CHUNK_SIZE <? C
   then emit (EvLog WARNING
                (LogText [Lit "The introduced chunk size is noticeably large, timeout errors may occur.";
                          Lit "Consider a chunk size smaller than ";
                          FInt _MAX_CHUNK_SIZE]))
   else ret ()) tr
  = (tr ++ warning_events C, Returns ()).
Proof.
  unfold warning_events. destruct (_ <? _); unfold emit, ret; [done|].
  by rewrite app_nil_r.
Qed.

(** A name that is empty or does not match is refused first, with nothing
    done. *)
Lemma log_async_name_refused api records name tags metadata C verbose tr :
  name = "" ∨ name_matches name = false →
  log_async api records name tags metadata C verbose tr
  = (tr, Raises (name_error name)).
Proof.
  intros Hn. unfold log_async, name_error. case_bool_decide; [done|].
  destruct Hn as [?|Hm]; [done|]. by rewrite Hm.
Qed.

(** When the [records] argument cannot be listed: the error of [list]. *)
Lemma log_async_not_iterable api records name tags metadata C verbose tr e :
  name ≠ "" → name_matches name = true →
  as_list records = Raises e →
  log_async api records name tags metadata C verbose tr
  = (tr ++ warning_events C, Raises e).
Proof.
  intros Hname Hmatch Hl. enter_log_async Hname Hmatch.
  rewrite bind_run, warning_trace, bind_run. unfold lift at 1. by rewrite Hl.
Qed.

Lemma log_async_empty_batch api records name tags metadata C verbose tr :
  name ≠ "" → name_matches name = true →
  as_list records = Returns [] →
  log_async api records name tags metadata C verbose tr
  = (tr ++ warning_events C, Raises empty_records_error).
Proof.
  intros Hname Hmatch Hl. enter_log_async Hname Hmatch.
  rewrite bind_run, warning_trace, bind_run. unfold lift at 1. by rewrite Hl.
Qed.

Lemma log_async_dispatch_refused api records name tags metadata C verbose tr o os e :
  name ≠ "" → name_matches name = true →
  as_list records = Returns (o :: os) →
  dispatch (ob_type o) = Raises e →
  log_async api records name tags metadata C verbose tr
  = (tr ++ warning_events C, Raises e).
Proof.
  intros Hname Hmatch Hl Hd. enter_log_async Hname Hmatch.
  rewrite bind_run, warning_trace, bind_run. unfold lift at 1. rewrite Hl.
  rewrite bind_run. unfold try_except at 1. rewrite bind_run.
  unfold lift at 1, getitem at 1. simpl lookup. cbv iota beta. unfold ret at 1.
  rewrite bind_run. unfold lift at 1. by rewrite Hd.
Qed.

(** An accepted call runs the loop over the indices of [range], then
    closes the progress bar and reports. *)
Lemma log_async_accepted api records name tags metadata C verbose tr
    (l : list pyobj) (o : pyobj) bulk_cls creation_cls indices :
  name ≠ "" → name_matches name = true →
  as_list records = Returns l →
  head l = Some o →
  dispatch (ob_type o) = Returns (bulk_cls, creation_cls) →
  range 0 (Z.of_nat (length l)) C = Returns indices →
  log_async api records name tags metadata C verbose tr
  = match for_each indices (0, 0)
            (upload_chunk l name (or_empty tags) (or_empty metadata) C
               bulk_cls creation_cls)
            (tr ++ warning_events C ++ [EvTqdm (length l) (negb verbose)]) with
    | (tr', Returns totals) =>
        (tr' ++ closing_events api name verbose totals,
         Returns {| dataset := name; processed := totals.1; failed := totals.2 |})
    | (tr', Raises e) => (tr', Raises e)
    end.
Proof.
  intros Hname Hmatch Hl Hhead Hd Hr. enter_log_async Hname Hmatch.
  rewrite bind_run, warning_trace, bind_run. unfold lift at 1. rewrite Hl.
  rewrite bind_run. unfold try_except at 1. rewrite bind_run.
  unfold lift at 1, getitem at 1. rewrite <- head_lookup, Hhead.
  cbv iota beta. unfold ret at 1.
  rewrite bind_run. unfold lift at 1. rewrite Hd.
  rewrite bind_run. unfold emit at 1. rewrite <- app_assoc.
  rewrite bind_run. unfold lift at 1. rewrite Hr.
  rewrite bind_run. simpl fst. simpl snd.
  destruct (for_each _ _ _ _) as [tr' [totals|e]]; [|done].
  rewrite bind_run. unfold emit at 1.
  unfold closing_events. destruct verbose.
  - rewrite bind_run, report_trace. unfold ret.
    rewrite <- app_assoc. done.
  - rewrite bind_run. unfold ret. done.
Qed.

End CoroutineFacts.

(** ** The chunked upload *)

Section Upload.
Context `{Collaborators}.

Lemma chunk_at_length (records : list pyobj) (C : Z) (i : nat) :
  0 < C → Z.of_nat i * C < Z.of_nat (length records) →
  length (chunk_at records C i)
  = Z.to_nat (Z.min C (Z.of_nat (length records) - Z.of_nat i * C)).
Proof.
  intros HC Hi. unfold chunk_at. rewrite slice_length by lia. lia.
Qed.

Lemma chunk_calls_sizes name bulk_cls tags metadata conv (records : list pyobj) (C : Z) :
  0 < C →
  call_sizes (chunk_calls name bulk_cls tags metadata conv records C)
  = map (λ i : nat, Z.to_nat (Z.min C (Z.of_nat (length records) - Z.of_nat i * C)))
        (seq 0 (Z.to_nat (n_chunks (Z.of_nat (length records)) C))).
Proof.
  intros HC. unfold call_sizes, chunk_calls. rewrite map_map.
  apply map_ext_in. intros i Hi%in_seq. simpl. rewrite length_map.
  apply chunk_at_length; [done|].
  pose proof (n_chunks_ceiling (Z.of_nat (length records)) C HC). nia.
Qed.

(** The calls of the loop over [range(0, N, C)] are the calls of the chunks. *)
Lemma range_calls name bulk_cls tags metadata conv (records : list pyobj) (C : Z) :
  map (call_at name bulk_cls tags metadata conv records C)
      (map (λ k : nat, Z.of_nat k * C)
           (seq 0 (Z.to_nat (n_chunks (Z.of_nat (length records)) C))))
  = chunk_calls name bulk_cls tags metadata conv records C.
Proof.
  unfold chunk_calls. rewrite map_map. apply map_ext. intros k.
  unfold call_at, chunk_at. do 2 f_equal. lia.
Qed.

(** C1: for a non-empty batch of [N] records of one accepted variant and a
    chunk size [C > 0], when every call is answered, [log_async] makes the
    calls of the positional chunks [records[i*C : (i+1)*C]], in order, one per
    chunk, which is the ceiling of [N / C] calls, and returns the
    [BulkResponse] of the sums of the answers' [processed] and [failed];
    1200 records by chunks of 500 give three calls of 500, 500 and 200
    records. *)
Theorem log_async_chunked_upload api (records : list pyobj) name tags metadata
    (C : Z) verbose (variant : pytype) bulk_cls creation_cls
    (conv : pyobj → CreationRecord) (rs : list bulk_parsed) (tr : list event) :
  records ≠ [] →
  Forall (λ o, ob_type o = variant) records →
  dispatch variant = Returns (bulk_cls, creation_cls) →
  0 < C →
  name ≠ "" → name_matches name = true →
  (∀ o, ob_type o = variant → from_client creation_cls o = Returns (conv o)) →
  served (bulk_calls tr) (chunk_calls name bulk_cls tags metadata conv records C) rs →
  bulk_calls (log_async api (Iterable records) name tags metadata C verbose tr).1
  = bulk_calls tr ++ chunk_calls name bulk_cls tags metadata conv records C
  ∧ Z.of_nat (length (chunk_calls name bulk_cls tags metadata conv records C))
    = n_chunks (Z.of_nat (length records)) C
  ∧ (n_chunks (Z.of_nat (length records)) C - 1) * C < Z.of_nat (length records)
    ≤ n_chunks (Z.of_nat (length records)) C * C
  ∧ (log_async api (Iterable records) name tags metadata C verbose tr).2
    = Returns {| dataset := name;
                 processed := Zsum (bp_processed <$> rs);
                 failed := Zsum (bp_failed <$> rs) |}
  ∧ (length records = 1200%nat → C = 500 →
     call_sizes (chunk_calls name bulk_cls tags metadata conv records C)
     = [500; 500; 200]%nat).
Proof.
  intros Hne Hvar Hd HC Hname Hmatch Hconv Hs.
  destruct records as [|o os]; [done|]. clear Hne.
  pose proof (Forall_inv Hvar) as Ho. simpl in Ho.
  pose proof (n_chunks_ceiling (Z.of_nat (length (o :: os))) C HC) as Hceil.
  assert (0 < Z.of_nat (length (o :: os))) as HN by (simpl; lia).
  erewrite log_async_accepted; try done.
  2:{ by rewrite Ho. }
  2:{ by apply range_positive_step. }
  rewrite (for_each_served _ _ _ _ _ _ _ conv _ _ _ rs).
  2:{ apply Forall_forall. intros i _ x Hx. apply Hconv.
      apply (slice_subseteq (o :: os)) in Hx.
      by apply (proj1 (Forall_forall _ _) Hvar). }
  2:{ rewrite range_calls, !bulk_calls_app, bulk_calls_warning_events. simpl.
      by rewrite app_nil_r. }
  rewrite range_calls. simpl fst. simpl snd.
  repeat split.
  - rewrite !bulk_calls_app, bulk_calls_warning_events, bulk_calls_upload_events,
      bulk_calls_closing_events. simpl. by rewrite !app_nil_r.
  - unfold chunk_calls. rewrite length_map, length_seq. lia.
  - lia.
  - lia.
  - intros Hlen ->. rewrite chunk_calls_sizes by done. rewrite Hlen. done.
Qed.

(** C3: when the transport client refuses the call of chunk [k] (the calls
    [before] it were answered), [log_async] makes no call for a later chunk,
    produces no [BulkResponse] and raises the transport error; its trace ends
    with the refused call, after the calls of the chunks before [k], which
    nothing takes back. *)
Theorem log_async_transport_error api (records : list pyobj) name tags metadata
    (C : Z) verbose (variant : pytype) bulk_cls creation_cls
    (conv : pyobj → CreationRecord) (before after : list (bulk_call CreationRecord))
    (c : bulk_call CreationRecord) (rs : list bulk_parsed) (e : exn)
    (tr : list event) :
  records ≠ [] →
  Forall (λ o, ob_type o = variant) records →
  dispatch variant = Returns (bulk_cls, creation_cls) →
  0 < C →
  name ≠ "" → name_matches name = true →
  (∀ o, ob_type o = variant → from_client creation_cls o = Returns (conv o)) →
  chunk_calls name bulk_cls tags metadata conv records C = before ++ c :: after →
  served (bulk_calls tr) before rs →
  async_bulk (bulk_calls tr ++ before) c = Raises e →
  log_async api (Iterable records) name tags metadata C verbose tr
  = (tr ++ warning_events C ++ [EvTqdm (length records) (negb verbose)]
        ++ upload_events before ++ [EvBulk c],
     Raises e)
  ∧ bulk_calls (log_async api (Iterable records) name tags metadata C verbose tr).1
    = bulk_calls tr ++ before ++ [c].
Proof.
  intros Hne Hvar Hd HC Hname Hmatch Hconv Hcalls Hs He.
  destruct records as [|o os]; [done|]. clear Hne.
  pose proof (Forall_inv Hvar) as Ho. simpl in Ho.
  assert (0 < Z.of_nat (length (o :: os))) as HN by (simpl; lia).
  rewrite <- range_calls in Hcalls.
  apply map_eq_app in Hcalls as (ib & rest & Hidx & Hb & Hrest).
  destruct rest as [|i ia]; [done|]. simpl in Hrest.
  injection Hrest as Hi Ha.
  assert (log_async api (Iterable (o :: os)) name tags metadata C verbose tr
          = (tr ++ warning_events C ++ [EvTqdm (length (o :: os)) (negb verbose)]
                ++ upload_events before ++ [EvBulk c], Raises e)) as Hrun.
  { erewrite log_async_accepted; try done.
    2:{ by rewrite Ho. }
    2:{ by apply range_positive_step. }
    rewrite Hidx.
    rewrite (for_each_refused _ _ _ _ _ _ _ conv _ _ _ _ _ rs e).
    - rewrite Hb, Hi, <- !app_assoc. done.
    - apply Forall_forall. intros j _ x Hx. apply Hconv.
      apply (slice_subseteq (o :: os)) in Hx.
      by apply (proj1 (Forall_forall _ _) Hvar).
    - rewrite Hb, !bulk_calls_app, bulk_calls_warning_events. simpl.
      by rewrite app_nil_r.
    - rewrite Hb, Hi, !bulk_calls_app, bulk_calls_warning_events. simpl.
      by rewrite app_nil_r. }
  split; [done|]. rewrite Hrun. cbn [fst].
  rewrite !bulk_calls_app, bulk_calls_warning_events, bulk_calls_upload_events.
  done.
Qed.

(** C10: for a non-empty batch whose first record has an accepted variant
    and a negative chunk size, [range(0, N, chunk_size)] is empty:
    [log_async] makes no call and returns a [BulkResponse] with
    [processed = 0] and [failed = 0], and no error is raised. *)
Theorem log_async_negative_chunk_size api (o : pyobj) (os : list pyobj) name
    tags metadata (C : Z) verbose classes (tr : list event) :
  dispatch (ob_type o) = Returns classes →
  name ≠ "" → name_matches name = true →
  C < 0 →
  log_async api (Iterable (o :: os)) name tags metadata C verbose tr
  = (tr ++ [EvTqdm (length (o :: os)) (negb verbose)]
        ++ closing_events api name verbose (0, 0),
     Returns {| dataset := name; processed := 0; failed := 0 |})
  ∧ bulk_calls (log_async api (Iterable (o :: os)) name tags metadata C verbose tr).1
    = bulk_calls tr.
Proof.
  intros Hd Hname Hmatch HC. destruct classes as [bulk_cls creation_cls].
  assert (log_async api (Iterable (o :: os)) name tags metadata C verbose tr
          = (tr ++ [EvTqdm (length (o :: os)) (negb verbose)]
                ++ closing_events api name verbose (0, 0),
             Returns {| dataset := name; processed := 0; failed := 0 |})) as Hrun.
  { erewrite log_async_accepted; try done.
    2:{ apply range_negative_step; lia. }
    simpl for_each. unfold ret. unfold warning_events.
    destruct (Z.ltb_spec _MAX_CHUNK_SIZE C) as [Hbig|_].
    - unfold _MAX_CHUNK_SIZE in Hbig. lia.
    - simpl. by rewrite <- app_assoc. }
  split; [done|]. rewrite Hrun. cbn [fst].
  rewrite !bulk_calls_app, bulk_calls_closing_events. simpl. by rewrite app_nil_r.
Qed.

Lemma dispatch_unknown (t : pytype) :
  t ∉ Record_args → dispatch t = Raises (unknown_type_error t).
Proof.
  intros Ht. destruct t; try done; exfalso; apply Ht; unfold Record_args;
    rewrite !elem_of_cons; auto.
Qed.

(** C5: a non-empty batch whose first record's class is none of the three
    accepted variants is refused with an input error and without any call;
    under a valid name the error is the one that names the class and
    [Record.__args__].  The test is on the class itself: a single object
    whose class derives from a variant, for which [isinstance] holds, is
    refused in the same way. *)
Theorem log_async_unknown_record_type api (o : pyobj) (os : list pyobj) name
    tags metadata (C : Z) verbose (tr : list event) :
  ob_type o ∉ Record_args →
  (∃ e, (log_async api (Iterable (o :: os)) name tags metadata C verbose tr).2
        = Raises e ∧ exc_type e = InputValueError)
  ∧ bulk_calls (log_async api (Iterable (o :: os)) name tags metadata C verbose tr).1
    = bulk_calls tr
  ∧ (name ≠ "" → name_matches name = true →
     (log_async api (Iterable (o :: os)) name tags metadata C verbose tr).2
     = Raises (unknown_type_error (ob_type o))
     ∧ (isinstance_Record o = true →
        (log_async api (OneObject o) name tags metadata C verbose tr).2
        = Raises (unknown_type_error (ob_type o))))
  ∧ FType (ob_type o) ∈ exc_msg (unknown_type_error (ob_type o))
  ∧ FTypes Record_args ∈ exc_msg (unknown_type_error (ob_type o)).
Proof.
  intros Ht. apply dispatch_unknown in Ht.
  assert (FType (ob_type o) ∈ exc_msg (unknown_type_error (ob_type o))
          ∧ FTypes Record_args ∈ exc_msg (unknown_type_error (ob_type o)))
    as [Hmsg1 Hmsg2] by (simpl; rewrite !elem_of_cons; auto 10).
  destruct (decide (name = "")) as [Hname|Hname];
    [|destruct (name_matches name) eqn:Hmatch].
  - rewrite log_async_name_refused by auto. unfold name_error.
    rewrite bool_decide_eq_true_2 by done.
    cbn [fst snd]. split_and!; try done. by eexists.
  - rewrite (log_async_dispatch_refused api (Iterable (o :: os)) name tags metadata C
              verbose tr o os _ Hname Hmatch eq_refl Ht).
    cbn [fst snd]. split_and!; try done.
    + by eexists.
    + by rewrite bulk_calls_app, bulk_calls_warning_events, app_nil_r.
    + intros _ _. split; [done|]. intros Hinst.
      assert (as_list (OneObject o) = Returns [o]) as Hl
        by (simpl; by rewrite Hinst).
      by rewrite (log_async_dispatch_refused _ _ _ _ _ _ _ _ o [] _ Hname Hmatch Hl Ht).
  - rewrite log_async_name_refused by auto. unfold name_error.
    rewrite bool_decide_eq_false_2 by done.
    cbn [fst snd]. split_and!; try done. by eexists.
Qed.

(** C6: an empty batch is refused with an input error, nothing is returned
    and no call is made; under a valid name the error is the one of the
    empty record list. *)
Theorem log_async_empty_records api name tags metadata (C : Z) verbose
    (tr : list event) :
  (∃ e, (log_async api (Iterable []) name tags metadata C verbose tr).2 = Raises e
        ∧ exc_type e = InputValueError)
  ∧ bulk_calls (log_async api (Iterable []) name tags metadata C verbose tr).1
    = bulk_calls tr
  ∧ (name ≠ "" → name_matches name = true →
     (log_async api (Iterable []) name tags metadata C verbose tr).2
     = Raises empty_records_error).
Proof.
  destruct (decide (name = "")) as [Hname|Hname];
    [|destruct (name_matches name) eqn:Hmatch].
  - rewrite log_async_name_refused by auto. unfold name_error.
    rewrite bool_decide_eq_true_2 by done.
    cbn [fst snd]. split_and!; try done. by eexists.
  - rewrite (log_async_empty_batch api (Iterable []) name tags metadata C verbose tr
              Hname Hmatch eq_refl).
    cbn [fst snd]. split_and!; try done; [by eexists|].
    by rewrite bulk_calls_app, bulk_calls_warning_events, app_nil_r.
  - rewrite log_async_name_refused by auto. unfold name_error.
    rewrite bool_decide_eq_false_2 by done.
    cbn [fst snd]. split_and!; try done. by eexists.
Qed.

(** The first [k] calls of a batch are the calls of the loop at the first
    [k] indices. *)
Lemma chunk_calls_take name bulk_cls tags metadata conv (records : list pyobj)
    (C : Z) (k : nat) :
  (k ≤ Z.to_nat (n_chunks (Z.of_nat (length records)) C))%nat →
  take k (chunk_calls name bulk_cls tags metadata conv records C)
  = map (call_at name bulk_cls tags metadata conv records C)
        (map (λ j : nat, Z.of_nat j * C) (seq 0 k)).
Proof.
  intros Hk. unfold chunk_calls.
  rewrite firstn_map, take_seq, Nat.min_l by done.
  rewrite map_map. apply map_ext. intros j. unfold call_at, chunk_at.
  do 2 f_equal. lia.
Qed.

(** C2, as the code has it: [log_async] looks at the class of the first
    record only and converts every record with the creation class of that
    variant.  When the conversion raises on the record at position [p] (the
    records [good] before it are converted), [log_async] fails with the
    error of the conversion, after the calls of the [p / C] chunks that end
    before that record: before any call only when the record lies in the
    first chunk. *)
Theorem log_async_converts_by_first_type api (good rest : list pyobj)
    (bad first : pyobj) name tags metadata (C : Z) verbose bulk_cls creation_cls
    (conv : pyobj → CreationRecord) (rs : list bulk_parsed) (e : exn)
    (tr : list event) :
  head (good ++ bad :: rest) = Some first →
  dispatch (ob_type first) = Returns (bulk_cls, creation_cls) →
  0 < C →
  name ≠ "" → name_matches name = true →
  (∀ o, o ∈ good → from_client creation_cls o = Returns (conv o)) →
  from_client creation_cls bad = Raises e →
  served (bulk_calls tr)
    (take (Z.to_nat (Z.of_nat (length good) / C))
       (chunk_calls name bulk_cls tags metadata conv (good ++ bad :: rest) C)) rs →
  (log_async api (Iterable (good ++ bad :: rest)) name tags metadata C verbose tr).2
  = Raises e
  ∧ bulk_calls
      (log_async api (Iterable (good ++ bad :: rest)) name tags metadata C verbose tr).1
    = bulk_calls tr
      ++ take (Z.to_nat (Z.of_nat (length good) / C))
           (chunk_calls name bulk_cls tags metadata conv (good ++ bad :: rest) C)
  ∧ Z.of_nat (length (bulk_calls
      (log_async api (Iterable (good ++ bad :: rest)) name tags metadata C verbose tr).1))
    = Z.of_nat (length (bulk_calls tr)) + Z.of_nat (length good) / C.
Proof.
  intros Hhead Hd HC Hname Hmatch Hgood Hbad Hs.
  set (records := good ++ bad :: rest) in *.
  set (p := Z.of_nat (length good)) in *.
  set (N := Z.of_nat (length records)).
  set (n := Z.to_nat (n_chunks N C)).
  set (k := Z.to_nat (p / C)) in *.
  assert (N = p + 1 + Z.of_nat (length rest)) as HN
    by (unfold N, records, p; rewrite length_app; simpl; lia).
  pose proof (Z.div_mod p C ltac:(lia)) as Hdm.
  pose proof (Z.mod_pos_bound p C HC) as Hmod.
  assert (0 ≤ p / C) as Hq by (apply Z.div_pos; unfold p; lia).
  pose proof (n_chunks_ceiling N C HC) as Hceil.
  assert (k < n)%nat as Hkn by (unfold k, n; nia).
  assert (Z.of_nat k = p / C) as Hk by (unfold k; lia).
  assert (seq 0 n = seq 0 k ++ k :: seq (S k) (n - k - 1)) as Hseq.
  { replace n with (k + S (n - k - 1))%nat at 1 by lia. by rewrite seq_app. }
  rewrite chunk_calls_take in * by (fold N n; lia).
  assert ((log_async api (Iterable records) name tags metadata C verbose tr)
          = (tr ++ (warning_events C ++ [EvTqdm (length records) (negb verbose)])
                ++ upload_events
                     (map (call_at name bulk_cls tags metadata conv records C)
                          (map (λ j : nat, Z.of_nat j * C) (seq 0 k))),
             Raises e)) as Hrun.
  { erewrite log_async_accepted; try done.
    2:{ apply range_positive_step; lia. }
    fold N n. rewrite Hseq, map_app. simpl map.
    rewrite (for_each_unconverted _ _ _ _ _ _ _ conv _ _ _ _ _ rs e).
    - by rewrite <- !app_assoc.
    - apply Forall_forall. intros i Hi x Hx.
      apply list_elem_of_In, in_map_iff in Hi as (j & <- & Hj%in_seq).
      apply Hgood. apply (slice_in_prefix good (bad :: rest)) in Hx; [done|..].
      + lia.
      + lia.
      + fold p. nia.
    - rewrite !bulk_calls_app, bulk_calls_warning_events. simpl.
      by rewrite app_nil_r.
    - destruct (slice_across_prefix good rest bad (Z.of_nat k * C)
                  (Z.of_nat k * C + C)) as [l3 Hl3]; [lia|fold p; nia|fold p; nia|].
      fold records in Hl3. rewrite Hl3.
      apply (comprehension_raises _ conv); [|done].
      intros y Hy. apply Hgood. by eapply subseteq_drop. }
  rewrite Hrun. cbn [fst snd]. split_and!; [done|..].
  - rewrite !bulk_calls_app, bulk_calls_warning_events, bulk_calls_upload_events.
    done.
  - rewrite !bulk_calls_app, bulk_calls_warning_events, bulk_calls_upload_events.
    simpl. rewrite length_app, !length_map, length_seq. lia.
Qed.

End Upload.

(** ** The agent and the two ways of calling [Api.log] *)

Section Calls.
Context `{Collaborators}.

(** In the background [Api.log] submits the coroutine and returns. *)
Lemma Api_log_background api kwargs (p : process) :
  Api_log api kwargs true p
  = (record_caller (EvSubmit (length (futures p)) (agent_loop api))
       (set_futures (futures p ++ [Pending (log_internal api kwargs)]) p),
     Returns (RetFuture (length (futures p)))).
Proof. done. Qed.

(** A blocking [Api.log] submits the coroutine, waits for the worker to run
    it, cancels the future and hands the outcome over. *)
Lemma Api_log_blocking api kwargs (p : process) :
  Api_log api kwargs false p
  = ({| worker_trace := (log_internal api kwargs (worker_trace p)).1;
        caller_trace := caller_trace p
                        ++ [EvSubmit (length (futures p)) (agent_loop api);
                            EvWait (length (futures p));
                            EvCancel (length (futures p))];
        futures := futures p
                   ++ [Finished (log_internal api kwargs (worker_trace p)).2];
        apis := apis p;
        __ACTIVE_API__ := __ACTIVE_API__ p;
        __LOOP__ := __LOOP__ p |},
     as_log_result (log_internal api kwargs (worker_trace p)).2).
Proof.
  unfold Api_log. rewrite bind_run.
  unfold agent_log, run_coroutine_threadsafe. cbv iota beta zeta.
  unfold try_finally. rewrite bind_run.
  unfold future_result. rewrite !bind_run. cbv beta iota.
  unfold worker_run, record_caller, set_futures, set_worker_trace. cbn [futures worker_trace caller_trace apis __ACTIVE_API__ __LOOP__].
  rewrite list_lookup_middle by done.
  destruct (log_internal api kwargs (worker_trace p)) as [tr r]. cbv iota beta.
  cbn [futures worker_trace caller_trace apis __ACTIVE_API__ __LOOP__].
  rewrite insert_app_r_alt, Nat.sub_diag by done. simpl insert.
  rewrite list_lookup_middle by done.
  unfold future_cancel, record_caller, set_futures, ret.
  destruct r as [b|e]; cbn [futures worker_trace caller_trace apis __ACTIVE_API__ __LOOP__];
    rewrite list_lookup_middle by done; cbn [fst snd as_log_result];
    by rewrite <- !app_assoc.
Qed.

(** C7: with [background=True], [Api.log] returns the future it has just
    submitted, without waiting: the coroutine is still pending and the
    worker has done nothing.  With [background=False] it waits until the
    worker has resolved the future, hands over the [BulkResponse], or the
    exception the wait raises, and in both cases its last action is to
    cancel the future. *)
Theorem Api_log_background_or_blocking api kwargs (p : process) :
  ((Api_log api kwargs true p).2 = Returns (RetFuture (length (futures p)))
   ∧ futures (Api_log api kwargs true p).1 !! length (futures p)
     = Some (Pending (log_internal api kwargs))
   ∧ caller_trace (Api_log api kwargs true p).1
     = caller_trace p ++ [EvSubmit (length (futures p)) (agent_loop api)]
   ∧ worker_trace (Api_log api kwargs true p).1 = worker_trace p)
  ∧ ((Api_log api kwargs false p).2
     = as_log_result (log_internal api kwargs (worker_trace p)).2
     ∧ futures (Api_log api kwargs false p).1 !! length (futures p)
       = Some (Finished (log_internal api kwargs (worker_trace p)).2)
     ∧ caller_trace (Api_log api kwargs false p).1
       = caller_trace p ++ [EvSubmit (length (futures p)) (agent_loop api);
                            EvWait (length (futures p));
                            EvCancel (length (futures p))]
     ∧ last (caller_trace (Api_log api kwargs false p).1)
       = Some (EvCancel (length (futures p)))
     ∧ (∀ e, (log_internal api kwargs (worker_trace p)).2 = Raises e →
          (Api_log api kwargs false p).2 = Raises e
          ∧ last (caller_trace (Api_log api kwargs false p).1)
            = Some (EvCancel (length (futures p))))).
Proof.
  rewrite Api_log_background, Api_log_blocking. cbn [fst snd].
  unfold record_caller, set_futures.
  cbn [futures worker_trace caller_trace apis __ACTIVE_API__ __LOOP__].
  assert (last (caller_trace p ++ [EvSubmit (length (futures p)) (agent_loop api);
                                   EvWait (length (futures p));
                                   EvCancel (length (futures p))])
          = Some (EvCancel (length (futures p)))) as Hlast.
  { change [EvSubmit (length (futures p)) (agent_loop api);
            EvWait (length (futures p)); EvCancel (length (futures p))]
      with ([EvSubmit (length (futures p)) (agent_loop api);
             EvWait (length (futures p))] ++ [EvCancel (length (futures p))]).
    by rewrite app_assoc, last_snoc. }
  split_and!; try done.
  - by rewrite list_lookup_middle.
  - by rewrite list_lookup_middle.
  - intros e He. by rewrite He.
Qed.

(** [__log_internal__] on an upload that raises: the error entry, then the
    same exception. *)
Lemma log_internal_raised api kwargs (tr tr' : list event) (e : exn) :
  log_async api (kw_records kwargs) (kw_name kwargs) (kw_tags kwargs)
    (kw_metadata kwargs) (kw_chunk_size kwargs) (kw_verbose kwargs) tr
  = (tr', Raises e) →
  is_Exception (exc_type e) = true →
  log_internal api kwargs tr
  = (tr' ++ [EvLog ERROR (LogFailure kwargs (exc_type e) (exc_msg e) (exc_args e))],
     Raises e).
Proof.
  intros Hrun He. unfold log_internal, try_except. rewrite Hrun, He.
  by rewrite bind_run.
Qed.

(** What is raised without being an [Exception] goes through
    [__log_internal__] as it is, with no entry. *)
Lemma log_internal_passed api kwargs (tr tr' : list event) (e : exn) :
  log_async api (kw_records kwargs) (kw_name kwargs) (kw_tags kwargs)
    (kw_metadata kwargs) (kw_chunk_size kwargs) (kw_verbose kwargs) tr
  = (tr', Raises e) →
  is_Exception (exc_type e) = false →
  log_internal api kwargs tr = (tr', Raises e).
Proof.
  intros Hrun He. unfold log_internal, try_except. by rewrite Hrun, He.
Qed.


(** The worker resolves the future of a background call with the outcome
    of the coroutine. *)
Lemma background_future_resolved api kwargs (p : process) :
  futures (worker_run (length (futures p)) (Api_log api kwargs true p).1).1
    !! length (futures p)
  = Some (Finished (log_internal api kwargs (worker_trace p)).2)
  ∧ worker_trace (worker_run (length (futures p)) (Api_log api kwargs true p).1).1
    = (log_internal api kwargs (worker_trace p)).1.
Proof.
  rewrite Api_log_background. cbn [fst].
  unfold worker_run, record_caller, set_futures, set_worker_trace.
  cbn [futures worker_trace caller_trace apis __ACTIVE_API__ __LOOP__].
  rewrite list_lookup_middle by done.
  destruct (log_internal api kwargs (worker_trace p)) as [tr r].
  cbn [fst snd futures worker_trace].
  rewrite insert_app_r_alt, Nat.sub_diag by done. simpl insert.
  by rewrite list_lookup_middle.
Qed.

(** Whatever the upload raises, [__log_internal__] raises it too. *)
Lemma log_internal_never_swallows api kwargs (tr tr' : list event) (e : exn) :
  log_async api (kw_records kwargs) (kw_name kwargs) (kw_tags kwargs)
    (kw_metadata kwargs) (kw_chunk_size kwargs) (kw_verbose kwargs) tr
  = (tr', Raises e) →
  (log_internal api kwargs tr).2 = Raises e.
Proof.
  intros Hrun. destruct (is_Exception (exc_type e)) eqn:He.
  - by rewrite (log_internal_raised _ _ _ _ _ Hrun He).
  - by rewrite (log_internal_passed _ _ _ _ _ Hrun He).
Qed.

(** C8: whatever the upload raises, [__log_internal__] raises it again, so
    that the future of a background call is resolved with it once the
    worker has run and a blocking call raises it to the caller; and when it
    is an exception (an instance of [Exception], what [except Exception]
    handles), [__log_internal__] first records an error entry with the
    arguments of the call, the class of the exception, its message and its
    [args]. *)
Theorem log_internal_logs_and_reraises api kwargs (tr tr' : list event) (e : exn) :
  log_async api (kw_records kwargs) (kw_name kwargs) (kw_tags kwargs)
    (kw_metadata kwargs) (kw_chunk_size kwargs) (kw_verbose kwargs) tr
  = (tr', Raises e) →
  (log_internal api kwargs tr).2 = Raises e
  ∧ (∀ p : process, worker_trace p = tr →
       (Api_log api kwargs false p).2 = Raises e
       ∧ futures (Api_log api kwargs false p).1 !! length (futures p)
         = Some (Finished (Raises e))
       ∧ futures (worker_run (length (futures p)) (Api_log api kwargs true p).1).1
           !! length (futures p)
         = Some (Finished (Raises e)))
  ∧ (is_Exception (exc_type e) = true →
     (log_internal api kwargs tr).1
     = tr' ++ [EvLog ERROR (LogFailure kwargs (exc_type e) (exc_msg e) (exc_args e))]
     ∧ ∀ p : process, worker_trace p = tr →
         worker_trace (Api_log api kwargs false p).1
         = tr' ++ [EvLog ERROR (LogFailure kwargs (exc_type e) (exc_msg e)
                                  (exc_args e))]
         ∧ worker_trace
             (worker_run (length (futures p)) (Api_log api kwargs true p).1).1
           = tr' ++ [EvLog ERROR (LogFailure kwargs (exc_type e) (exc_msg e)
                                    (exc_args e))]).
Proof.
  intros Hrun. pose proof (log_internal_never_swallows _ _ _ _ _ Hrun) as Hraise.
  split_and!; [done|..].
  - intros p <-. destruct (background_future_resolved api kwargs p) as [Hf _].
    rewrite Hf, Api_log_blocking, Hraise. cbn [fst snd as_log_result futures].
    by rewrite list_lookup_middle.
  - intros He. pose proof (log_internal_raised _ _ _ _ _ Hrun He) as Hint.
    rewrite Hint. split; [done|]. intros p <-.
    destruct (background_future_resolved api kwargs p) as [_ Hw].
    by rewrite Hw, Api_log_blocking, Hint.
Qed.

(** C4, as the code has it: the name is checked by [log_async], on the
    worker, after [Api.log] has submitted the coroutine.  For a name that
    is empty or does not match, [log_async] raises the input error first,
    with its trace unchanged; a blocking [Api.log] raises that error to the
    caller and a background [Api.log] returns the future that the worker
    resolves with it; in both cases one submission was made and no bulk
    call. *)
Theorem invalid_name_refused_by_coroutine api kwargs (p : process) :
  kw_name kwargs = "" ∨ name_matches (kw_name kwargs) = false →
  exc_type (name_error (kw_name kwargs)) = InputValueError
  ∧ (∀ tr, log_async api (kw_records kwargs) (kw_name kwargs) (kw_tags kwargs)
             (kw_metadata kwargs) (kw_chunk_size kwargs) (kw_verbose kwargs) tr
           = (tr, Raises (name_error (kw_name kwargs))))
  ∧ ((Api_log api kwargs false p).2 = Raises (name_error (kw_name kwargs))
     ∧ submit_loops (caller_trace (Api_log api kwargs false p).1)
       = submit_loops (caller_trace p) ++ [agent_loop api]
     ∧ bulk_calls (worker_trace (Api_log api kwargs false p).1)
       = bulk_calls (worker_trace p))
  ∧ ((Api_log api kwargs true p).2 = Returns (RetFuture (length (futures p)))
     ∧ submit_loops (caller_trace (Api_log api kwargs true p).1)
       = submit_loops (caller_trace p) ++ [agent_loop api]
     ∧ futures (worker_run (length (futures p)) (Api_log api kwargs true p).1).1
         !! length (futures p)
       = Some (Finished (Raises (name_error (kw_name kwargs))))
     ∧ bulk_calls
         (worker_trace (worker_run (length (futures p)) (Api_log api kwargs true p).1).1)
       = bulk_calls (worker_trace p)).
Proof.
  intros Hn.
  pose proof (λ tr, log_async_name_refused api (kw_records kwargs) (kw_name kwargs)
                      (kw_tags kwargs) (kw_metadata kwargs) (kw_chunk_size kwargs)
                      (kw_verbose kwargs) tr Hn) as Hrun.
  assert (exc_type (name_error (kw_name kwargs)) = InputValueError) as Hty
    by (unfold name_error; by case_bool_decide).
  assert (is_Exception (exc_type (name_error (kw_name kwargs))) = true) as Hex
    by (by rewrite Hty).
  pose proof (log_internal_raised _ _ _ _ _ (Hrun (worker_trace p)) Hex) as Hint.
  destruct (background_future_resolved api kwargs p) as [Hf Hw].
  rewrite Hint in Hf, Hw. cbn [fst snd] in Hf, Hw.
  split_and!; try done.
  - rewrite Api_log_blocking, Hint. done.
  - rewrite Api_log_blocking. cbn [fst caller_trace].
    unfold submit_loops. by rewrite omap_app.
  - rewrite Api_log_blocking. cbn [fst worker_trace]. rewrite Hint. cbn [fst].
    by rewrite bulk_calls_app, app_nil_r.
  - rewrite Api_log_background. cbn [fst]. unfold record_caller.
    cbn [caller_trace]. unfold submit_loops. by rewrite omap_app.
  - rewrite Hw. by rewrite bulk_calls_app, app_nil_r.
Qed.

End Calls.

(** ** The execution context of a process *)

Section ExecutionContext.
Context `{Collaborators}.

Lemma loops_started_snoc (tr : list caller_event) (ev : caller_event) :
  loops_started (tr ++ [ev])
  = loops_started tr ++ match ev with EvLoopStart l => [l] | _ => [] end.
Proof. unfold loops_started. rewrite omap_app. by destruct ev. Qed.

Lemma submit_loops_snoc (tr : list caller_event) (ev : caller_event) :
  submit_loops (tr ++ [ev])
  = submit_loops tr ++ match ev with EvSubmit _ l => [l] | _ => [] end.
Proof. unfold submit_loops. rewrite omap_app. by destruct ev. Qed.

(** Building an [Api] keeps the process on one loop, and the new object
    holds that loop. *)
Lemma Api_init_one_loop args (p : process) :
  one_loop p →
  one_loop (Api_init args p).1
  ∧ __ACTIVE_API__ (Api_init args p).1 = __ACTIVE_API__ p
  ∧ (∀ a, (Api_init args p).2 = Returns a →
       __LOOP__ (Api_init args p).1 = Some (agent_loop a)).
Proof.
  intros Hp. unfold Api_init. rewrite bind_run. unfold lift.
  destruct (connect args) as [s|e]; [|done].
  rewrite bind_run. unfold setup_loop_in_thread, one_loop in *.
  destruct (__LOOP__ p) as [l|] eqn:Hl.
  - unfold add_api. cbn [fst snd apis caller_trace __LOOP__ __ACTIVE_API__].
    rewrite Hl. destruct Hp as (Hs & Hsub & Hne & Hall & Hact).
    split_and!; try done.
    + by destruct (apis p).
    + apply Forall_app. split; [done|]. by apply Forall_singleton.
    + by intros a [= <-].
  - unfold add_api, set_loop, record_caller.
    cbn [fst snd apis caller_trace __LOOP__ __ACTIVE_API__].
    destruct Hp as (Hs & Hsub & Hapis & Hact).
    rewrite loops_started_snoc, submit_loops_snoc, Hs, Hsub, Hapis, Hact.
    split_and!; try done.
    + by apply Forall_singleton.
    + by intros a [= <-].
Qed.

(** Logging through an [Api] that holds the loop of the process keeps the
    process on one loop. *)
Lemma Api_log_one_loop api kwargs background (p : process) :
  one_loop p → __LOOP__ p = Some (agent_loop api) →
  one_loop (Api_log api kwargs background p).1.
Proof.
  intros Hp Hl. unfold one_loop in *.
  destruct background; [rewrite Api_log_background|rewrite Api_log_blocking];
    unfold record_caller, set_futures;
    cbn [fst apis caller_trace __LOOP__ __ACTIVE_API__];
    rewrite Hl in *; destruct Hp as (Hs & Hsub & Hne & Hall & Hact).
  - rewrite loops_started_snoc, submit_loops_snoc, app_nil_r.
    split_and!; try done. apply Forall_app. split; [done|]. by apply Forall_singleton.
  - change [EvSubmit (length (futures p)) (agent_loop api);
            EvWait (length (futures p)); EvCancel (length (futures p))]
      with ([EvSubmit (length (futures p)) (agent_loop api)]
              ++ [EvWait (length (futures p))] ++ [EvCancel (length (futures p))]).
    rewrite !app_assoc, !loops_started_snoc, !submit_loops_snoc, !app_nil_r.
    split_and!; try done. apply Forall_app. split; [done|]. by apply Forall_singleton.
Qed.

Lemma set_active_api_one_loop a (p : process) :
  one_loop p → __LOOP__ p = Some (agent_loop a) → one_loop (set_active_api a p).
Proof.
  unfold one_loop, set_active_api. cbn [apis caller_trace __LOOP__ __ACTIVE_API__].
  intros Hp Hl. rewrite Hl in *. destruct Hp as (Hs & Hsub & Hne & Hall & Hact).
  split_and!; try done. by intros a' [= <-].
Qed.

(** [active_api()] keeps the process on one loop and returns an [Api] that
    holds the loop of the process. *)
Lemma active_api_one_loop (p : process) :
  one_loop p →
  one_loop (active_api p).1
  ∧ (∀ a, (active_api p).2 = Returns a →
       __LOOP__ (active_api p).1 = Some (agent_loop a)).
Proof.
  intros Hp. unfold active_api.
  destruct (__ACTIVE_API__ p) as [a|] eqn:Ha.
  - split; [done|]. intros a' [= <-]. cbn [fst]. unfold one_loop in Hp.
    destruct (__LOOP__ p) as [l|].
    + destruct Hp as (_ & _ & _ & _ & Hact). by rewrite (Hact a Ha).
    + destruct Hp as (_ & _ & _ & Hact). congruence.
  - rewrite bind_run.
    destruct (Api_init_one_loop default_init_args p Hp) as (Hp' & _ & Hl).
    destruct (Api_init default_init_args p) as [p' [a|e]]; [|done].
    cbn [fst snd] in *. specialize (Hl a eq_refl).
    split; [by apply set_active_api_one_loop|]. by intros a' [= <-].
Qed.

Lemma perform_one_loop (c : call) (p : process) : one_loop p → one_loop (perform c p).
Proof.
  intros Hp. destruct c as [args| |kwargs background|args|i kwargs background];
    unfold perform.
  - unfold init. rewrite bind_run.
    destruct (Api_init_one_loop args p Hp) as (Hp' & _ & Hl).
    destruct (Api_init args p) as [p' [a|e]]; [|done].
    cbn [fst snd] in *. apply set_active_api_one_loop; auto.
  - by apply active_api_one_loop.
  - unfold log. rewrite bind_run.
    destruct (active_api_one_loop p Hp) as (Hp' & Hl).
    destruct (active_api p) as [p' [a|e]]; [|done].
    cbn [fst snd] in *. apply Api_log_one_loop; auto.
  - by apply Api_init_one_loop.
  - destruct (apis p !! i) as [a|] eqn:Ha; [|done].
    apply Api_log_one_loop; [done|]. unfold one_loop in Hp.
    destruct (__LOOP__ p) as [l|].
    + destruct Hp as (_ & _ & _ & Hall & _).
      by rewrite (proj1 (Forall_lookup _ _) Hall i a Ha).
    + destruct Hp as (_ & _ & Hapis & _). by rewrite Hapis in Ha.
Qed.

Lemma run_program_one_loop (cs : list call) (p : process) :
  one_loop p → one_loop (run_program cs p).
Proof.
  revert p. induction cs as [|c cs IH]; intros p Hp; [done|].
  apply IH. by apply perform_one_loop.
Qed.

(** C9: whatever calls a program makes to the client, at most one
    scheduling loop is started in the process; nothing is started before an
    [Api] is built, the first [Api] that is built starts the loop, and
    every [Api] and every submission of [log] uses that loop. *)
Theorem execution_context_created_once (cs : list call) :
  (length (loops_started (caller_trace (run_program cs initial_process))) ≤ 1)%nat
  ∧ (∀ l, l ∈ submit_loops (caller_trace (run_program cs initial_process)) →
       loops_started (caller_trace (run_program cs initial_process)) = [l])
  ∧ (∀ a, a ∈ apis (run_program cs initial_process) →
       loops_started (caller_trace (run_program cs initial_process)) = [agent_loop a])
  ∧ (loops_started (caller_trace (run_program cs initial_process)) = []
     ↔ apis (run_program cs initial_process) = [])
  ∧ loops_started (caller_trace initial_process) = [].
Proof.
  assert (one_loop (run_program cs initial_process)) as Hp
    by (by apply run_program_one_loop).
  unfold one_loop in Hp.
  destruct (__LOOP__ (run_program cs initial_process)) as [l|].
  - destruct Hp as (Hs & Hsub & Hne & Hall & _). rewrite Hs.
    split_and!; try done.
    + intros l' Hl'. by rewrite (proj1 (Forall_forall _ _) Hsub l' Hl').
    + intros a Ha. by rewrite (proj1 (Forall_forall _ _) Hall a Ha).
  - destruct Hp as (Hs & Hsub & Hapis & _). rewrite Hs, Hsub, Hapis.
    split_and!; try done.
    + simpl. lia.
    + by intros l' ?%elem_of_nil.
    + by intros a ?%elem_of_nil.
Qed.

End ExecutionContext.

(** ** More on the upload *)

Section UploadMore.
Context `{Collaborators}.

(** The slices of the loop are the successive blocks of [C] records. *)
Lemma chunk_at_block (records : list pyobj) (C : Z) (i : nat) :
  0 < C →
  chunk_at records C i = take (Z.to_nat C) (drop (i * Z.to_nat C) records).
Proof.
  intros HC. unfold chunk_at, slice, slice_bound.
  destruct (Z.ltb_spec (Z.of_nat i * C) 0); [nia|].
  destruct (Z.ltb_spec ((Z.of_nat i + 1) * C) 0); [nia|].
  destruct (Z.le_gt_cases (Z.of_nat (length records)) (Z.of_nat i * C)) as [Hout|Hin].
  - rewrite !Z.min_r by nia. rewrite Z.sub_diag. simpl.
    rewrite (drop_ge records (i * Z.to_nat C)) by nia. by rewrite take_nil.
  - rewrite (Z.min_l (Z.of_nat i * C)) by lia.
    replace (Z.to_nat (Z.of_nat i * C)) with (i * Z.to_nat C)%nat by nia.
    destruct (Z.le_gt_cases ((Z.of_nat i + 1) * C) (Z.of_nat (length records))).
    + rewrite Z.min_l by lia. f_equal. nia.
    + rewrite Z.min_r by lia.
      rewrite !take_ge; [done|rewrite length_drop; nia|rewrite length_drop; nia].
Qed.

Lemma blocks_concat {A} (l : list A) (c n : nat) :
  concat (map (λ i, take c (drop (i * c) l)) (seq 0 n)) = take (n * c) l.
Proof.
  induction n as [|n IH]; [done|].
  rewrite seq_S, map_app, concat_app, IH. simpl. rewrite app_nil_r.
  rewrite take_take_drop. f_equal. lia.
Qed.

(** The chunks of a batch, one after the other, are the batch. *)
Lemma chunks_concat (records : list pyobj) (C : Z) :
  0 < C →
  concat (map (chunk_at records C)
            (seq 0 (Z.to_nat (n_chunks (Z.of_nat (length records)) C))))
  = records.
Proof.
  intros HC.
  rewrite (map_ext _ (λ i, take (Z.to_nat C) (drop (i * Z.to_nat C) records)))
    by (intros i; by apply chunk_at_block).
  rewrite blocks_concat. apply take_ge.
  pose proof (n_chunks_ceiling (Z.of_nat (length records)) C HC). nia.
Qed.

Lemma chunk_calls_records name bulk_cls tags metadata conv (records : list pyobj)
    (C : Z) :
  0 < C →
  concat (map (λ c, bd_records (bc_body c))
            (chunk_calls name bulk_cls tags metadata conv records C))
  = map conv records.
Proof.
  intros HC. unfold chunk_calls. rewrite map_map. simpl.
  rewrite <- (map_map (chunk_at records C) (map conv)), <- concat_map.
  by rewrite chunks_concat.
Qed.

(** The run of an upload whose calls are all answered. *)
Lemma log_async_uploaded api (records : list pyobj) name tags metadata
    (C : Z) verbose (variant : pytype) bulk_cls creation_cls
    (conv : pyobj → CreationRecord) (rs : list bulk_parsed) (tr : list event) :
  records ≠ [] →
  Forall (λ o, ob_type o = variant) records →
  dispatch variant = Returns (bulk_cls, creation_cls) →
  0 < C →
  name ≠ "" → name_matches name = true →
  (∀ o, ob_type o = variant → from_client creation_cls o = Returns (conv o)) →
  served (bulk_calls tr) (chunk_calls name bulk_cls tags metadata conv records C) rs →
  log_async api (Iterable records) name tags metadata C verbose tr
  = (tr ++ (warning_events C ++ [EvTqdm (length records) (negb verbose)])
        ++ upload_events (chunk_calls name bulk_cls tags metadata conv records C)
        ++ closing_events api name verbose
             (Zsum (bp_processed <$> rs), Zsum (bp_failed <$> rs)),
     Returns {| dataset := name;
                processed := Zsum (bp_processed <$> rs);
                failed := Zsum (bp_failed <$> rs) |}).
Proof.
  intros Hne Hvar Hd HC Hname Hmatch Hconv Hs.
  destruct records as [|o os]; [done|]. clear Hne.
  pose proof (Forall_inv Hvar) as Ho. simpl in Ho.
  assert (0 < Z.of_nat (length (o :: os))) as HN by (simpl; lia).
  erewrite log_async_accepted; try done.
  2:{ by rewrite Ho. }
  2:{ by apply range_positive_step. }
  rewrite (for_each_served _ _ _ _ _ _ _ conv _ _ _ rs).
  2:{ apply Forall_forall. intros i _ x Hx. apply Hconv.
      apply (slice_subseteq (o :: os)) in Hx.
      by apply (proj1 (Forall_forall _ _) Hvar). }
  2:{ rewrite range_calls, !bulk_calls_app, bulk_calls_warning_events. simpl.
      by rewrite app_nil_r. }
  rewrite range_calls. cbn [fst snd]. by rewrite <- !app_assoc.
Qed.

Lemma uploaded_app (t1 t2 : list event) : uploaded (t1 ++ t2) = uploaded t1 ++ uploaded t2.
Proof. unfold uploaded. by rewrite bulk_calls_app, map_app, concat_app. Qed.

Lemma progress_app (t1 t2 : list event) :
  progress (t1 ++ t2) = (progress t1 + progress t2)%nat.
Proof. unfold progress. by rewrite omap_app, sum_list_with_app. Qed.

Lemma progress_upload_events (cs : list (bulk_call CreationRecord)) :
  progress (upload_events cs)
  = length (concat (map (λ c, bd_records (bc_body c)) cs)).
Proof.
  induction cs as [|c cs IH]; [done|].
  change (upload_events (c :: cs))
    with ([EvBulk c; EvUpdate (length (bd_records (bc_body c)))] ++ upload_events cs).
  rewrite progress_app, IH. simpl. rewrite length_app. unfold progress. simpl. lia.
Qed.

Lemma progress_closing_events api name verbose totals :
  progress (closing_events api name verbose totals) = 0%nat.
Proof. unfold closing_events. by destruct verbose. Qed.

Lemma progress_warning_events (C : Z) : progress (warning_events C) = 0%nat.
Proof. unfold warning_events. by destruct (_ <? _). Qed.

(** X1: in an upload whose calls are all answered, the records of the
    calls, taken in the order of the calls, are the records of the batch in
    their order, each converted once: none is lost, repeated or moved. *)
Theorem log_async_uploads_batch_in_order api (records : list pyobj) name tags
    metadata (C : Z) verbose (variant : pytype) bulk_cls creation_cls
    (conv : pyobj → CreationRecord) (rs : list bulk_parsed) (tr : list event) :
  records ≠ [] →
  Forall (λ o, ob_type o = variant) records →
  dispatch variant = Returns (bulk_cls, creation_cls) →
  0 < C →
  name ≠ "" → name_matches name = true →
  (∀ o, ob_type o = variant → from_client creation_cls o = Returns (conv o)) →
  served (bulk_calls tr) (chunk_calls name bulk_cls tags metadata conv records C) rs →
  uploaded (log_async api (Iterable records) name tags metadata C verbose tr).1
  = uploaded tr ++ map conv records.
Proof.
  intros Hne Hvar Hd HC Hname Hmatch Hconv Hs.
  rewrite (log_async_uploaded _ _ _ _ _ _ _ _ _ _ _ _ _ Hne Hvar Hd HC Hname Hmatch
             Hconv Hs).
  cbn [fst]. rewrite !uploaded_app. unfold uploaded at 2 3 4 5.
  rewrite bulk_calls_warning_events, bulk_calls_upload_events,
    bulk_calls_closing_events, chunk_calls_records by done.
  simpl. by rewrite app_nil_r.
Qed.

Lemma answers_account (cs : list (bulk_call CreationRecord)) (rs : list bulk_parsed) :
  Forall2 (λ c r, bp_processed r + bp_failed r
                  = Z.of_nat (length (bd_records (bc_body c)))) cs rs →
  Zsum (bp_processed <$> rs) + Zsum (bp_failed <$> rs)
  = Z.of_nat (length (concat (map (λ c, bd_records (bc_body c)) cs))).
Proof.
  induction 1 as [|c r cs rs Hcr _ IH]; [done|].
  change (concat (map (λ c, bd_records (bc_body c)) (c :: cs)))
    with (bd_records (bc_body c) ++ concat (map (λ c, bd_records (bc_body c)) cs)).
  rewrite length_app, Nat2Z.inj_add, <- IH, <- Hcr.
  change (Zsum (bp_processed <$> r :: rs))
    with (bp_processed r + Zsum (bp_processed <$> rs)).
  change (Zsum (bp_failed <$> r :: rs))
    with (bp_failed r + Zsum (bp_failed <$> rs)).
  lia.
Qed.

(** X2: when every answer of the transport client accounts for each record
    of its call as processed or as failed, the response of the upload
    accounts for each record of the batch: [processed + failed] is the
    size of the batch. *)
Theorem log_async_accounts_for_batch api (records : list pyobj) name tags
    metadata (C : Z) verbose (variant : pytype) bulk_cls creation_cls
    (conv : pyobj → CreationRecord) (rs : list bulk_parsed) (tr : list event) :
  records ≠ [] →
  Forall (λ o, ob_type o = variant) records →
  dispatch variant = Returns (bulk_cls, creation_cls) →
  0 < C →
  name ≠ "" → name_matches name = true →
  (∀ o, ob_type o = variant → from_client creation_cls o = Returns (conv o)) →
  served (bulk_calls tr) (chunk_calls name bulk_cls tags metadata conv records C) rs →
  Forall2 (λ c r, bp_processed r + bp_failed r
                  = Z.of_nat (length (bd_records (bc_body c))))
    (chunk_calls name bulk_cls tags metadata conv records C) rs →
  ∃ response,
    (log_async api (Iterable records) name tags metadata C verbose tr).2
    = Returns response
    ∧ dataset response = name
    ∧ processed response + failed response = Z.of_nat (length records).
Proof.
  intros Hne Hvar Hd HC Hname Hmatch Hconv Hs Hacc.
  rewrite (log_async_uploaded _ _ _ _ _ _ _ _ _ _ _ _ _ Hne Hvar Hd HC Hname Hmatch
             Hconv Hs).
  eexists. split; [done|]. split; [done|]. cbn [processed failed].
  rewrite (answers_account _ _ Hacc), chunk_calls_records by done.
  by rewrite length_map.
Qed.

(** X3: in an upload whose calls are all answered, the progress bar is
    created with the size of the batch as its total, advances by exactly
    that size, and is closed. *)
Theorem log_async_progress_reaches_total api (records : list pyobj) name tags
    metadata (C : Z) verbose (variant : pytype) bulk_cls creation_cls
    (conv : pyobj → CreationRecord) (rs : list bulk_parsed) (tr : list event) :
  records ≠ [] →
  Forall (λ o, ob_type o = variant) records →
  dispatch variant = Returns (bulk_cls, creation_cls) →
  0 < C →
  name ≠ "" → name_matches name = true →
  (∀ o, ob_type o = variant → from_client creation_cls o = Returns (conv o)) →
  served (bulk_calls tr) (chunk_calls name bulk_cls tags metadata conv records C) rs →
  progress (log_async api (Iterable records) name tags metadata C verbose tr).1
  = (progress tr + length records)%nat
  ∧ EvTqdm (length records) (negb verbose)
    ∈ (log_async api (Iterable records) name tags metadata C verbose tr).1
  ∧ EvClose ∈ (log_async api (Iterable records) name tags metadata C verbose tr).1.
Proof.
  intros Hne Hvar Hd HC Hname Hmatch Hconv Hs.
  rewrite (log_async_uploaded _ _ _ _ _ _ _ _ _ _ _ _ _ Hne Hvar Hd HC Hname Hmatch
             Hconv Hs).
  cbn [fst]. split_and!.
  - rewrite !progress_app, progress_warning_events, progress_upload_events,
      progress_closing_events, chunk_calls_records, length_map by done.
    unfold progress. simpl. lia.
  - rewrite !elem_of_app, elem_of_cons. auto 10.
  - unfold closing_events. rewrite !elem_of_app. do 3 right. apply list_elem_of_here.
Qed.

Lemma comprehension_length {A B} (f : A → outcome B) (l : list A) (r : list B) :
  comprehension f l = Returns r → length r = length l.
Proof.
  revert r. induction l as [|x l IH]; intros r Hr; simpl in Hr.
  - by injection Hr as <-.
  - destruct (f x) as [y|e]; [|done].
    destruct (comprehension f l) as [ys|e]; [|done].
    injection Hr as <-. simpl. by rewrite (IH ys).
Qed.

(** One turn of the loop adds at most one call, for the records of its
    slice. *)
Lemma upload_chunk_call (records : list pyobj) name tags metadata (C : Z)
    bulk_cls creation_cls (i : Z) (acc : Z * Z) (tr : list event) :
  ∃ new,
    (upload_chunk records name (or_empty tags) (or_empty metadata) C bulk_cls
       creation_cls i acc tr).1 = tr ++ new
    ∧ Forall (λ c, bc_name c = name
                   ∧ bd_tags (bc_body c) = or_empty tags
                   ∧ bd_metadata (bc_body c) = or_empty metadata
                   ∧ length (bd_records (bc_body c))
                     = length (slice records i (i + C)))
        (bulk_calls new).
Proof.
  unfold upload_chunk. rewrite bind_run. unfold lift at 1.
  destruct (comprehension (from_client creation_cls) (slice records i (i + C)))
    as [body|e] eqn:Hbody.
  - apply comprehension_length in Hbody.
    rewrite bind_run. unfold await_async_bulk at 1.
    destruct (async_bulk _ _) as [r|e].
    + rewrite bind_run. unfold emit at 1, ret. cbn [fst].
      eexists. rewrite <- app_assoc. split; [done|].
      simpl. by repeat constructor.
    + cbn [fst]. eexists. split; [done|]. simpl. by repeat constructor.
  - exists []. cbn [fst]. by rewrite app_nil_r.
Qed.

(** The calls of a loop over indices whose slices hold between one and [C]
    records are well formed. *)
Lemma for_each_calls_well_formed (records : list pyobj) name tags metadata (C : Z)
    bulk_cls creation_cls (indices : list Z) (acc : Z * Z) (tr : list event) :
  Forall (λ i, 1 ≤ Z.of_nat (length (slice records i (i + C))) ≤ C) indices →
  ∃ new,
    (for_each indices acc
       (upload_chunk records name (or_empty tags) (or_empty metadata) C bulk_cls
          creation_cls) tr).1 = tr ++ new
    ∧ Forall (well_formed_call name tags metadata C) (bulk_calls new).
Proof.
  revert acc tr. induction indices as [|i indices IH]; intros acc tr Hall.
  - exists []. simpl. by rewrite app_nil_r.
  - apply Forall_cons in Hall as [Hi Hall]. simpl for_each. rewrite bind_run.
    destruct (upload_chunk_call records name tags metadata C bulk_cls creation_cls
                i acc tr) as (new1 & Htr1 & Hcalls1).
    assert (Forall (well_formed_call name tags metadata C) (bulk_calls new1)) as Hwf1.
    { eapply Forall_impl; [exact Hcalls1|].
      intros c (? & ? & ? & Hlen). unfold well_formed_call. rewrite Hlen. auto. }
    destruct (upload_chunk _ _ _ _ _ _ _ i acc tr) as [tr1 [acc1|e]];
      cbn [fst] in Htr1; subst tr1.
    + destruct (IH acc1 (tr ++ new1) Hall) as (new2 & Htr2 & Hwf2).
      exists (new1 ++ new2). rewrite Htr2, <- app_assoc. split; [done|].
      rewrite bulk_calls_app. by apply Forall_app.
    + by exists new1.
Qed.

(** [range], below a stop that is not negative, raises for a step of zero. *)
Lemma log_async_range_refused api records name tags metadata C verbose tr
    (l : list pyobj) (o : pyobj) classes e :
  name ≠ "" → name_matches name = true →
  as_list records = Returns l →
  head l = Some o →
  dispatch (ob_type o) = Returns classes →
  range 0 (Z.of_nat (length l)) C = Raises e →
  log_async api records name tags metadata C verbose tr
  = (tr ++ warning_events C ++ [EvTqdm (length l) (negb verbose)], Raises e).
Proof.
  intros Hname Hmatch Hl Hhead Hd Hr. unfold log_async.
  rewrite (bool_decide_eq_false_2 _ Hname), Hmatch.
  change (negb true) with false. cbv iota.
  rewrite bind_run. pose proof (warning_trace C tr) as Hwarn. unfold Co in Hwarn.
  rewrite Hwarn, bind_run. unfold lift at 1. rewrite Hl.
  rewrite bind_run. unfold try_except at 1. rewrite bind_run.
  unfold lift at 1, getitem at 1. rewrite <- head_lookup, Hhead.
  cbv iota beta. unfold ret at 1.
  rewrite bind_run. unfold lift at 1. rewrite Hd.
  rewrite bind_run. unfold emit at 1. rewrite <- app_assoc.
  rewrite bind_run. unfold lift at 1. by rewrite Hr.
Qed.

(** X4: with a chunk size of zero and a batch that passes the checks,
    [log_async] raises the [ValueError] of [range], not an input error:
    the progress bar was created and is left open, and no call is made. *)
Theorem log_async_zero_chunk_size api (o : pyobj) (os : list pyobj) name
    tags metadata verbose classes (tr : list event) :
  dispatch (ob_type o) = Returns classes →
  name ≠ "" → name_matches name = true →
  log_async api (Iterable (o :: os)) name tags metadata 0 verbose tr
  = (tr ++ [EvTqdm (length (o :: os)) (negb verbose)],
     Raises {| exc_type := ValueError;
               exc_msg := [Lit "range() arg 3 must not be zero"] |})
  ∧ bulk_calls (log_async api (Iterable (o :: os)) name tags metadata 0 verbose tr).1
    = bulk_calls tr.
Proof.
  intros Hd Hname Hmatch.
  rewrite (log_async_range_refused api (Iterable (o :: os)) name tags metadata 0
             verbose tr (o :: os) o classes _ Hname Hmatch eq_refl eq_refl Hd eq_refl).
  cbn [fst]. split; [done|].
  rewrite bulk_calls_app. simpl. by rewrite app_nil_r.
Qed.

(** X5: whatever the records, the name, the chunk size and the behaviour
    of the conversion and of the transport client, [log_async] only adds
    events to its trace, and every call it makes is for the dataset [name],
    with the tags and metadata of the call (empty when not given), and holds
    at least one record and at most [chunk_size] records; with a chunk size
    that is not positive it makes no call. *)
Theorem log_async_calls_well_formed api records name tags metadata (C : Z)
    verbose (tr : list event) :
  ∃ new,
    (log_async api records name tags metadata C verbose tr).1 = tr ++ new
    ∧ Forall (well_formed_call name tags metadata C) (bulk_calls new)
    ∧ (C ≤ 0 → bulk_calls new = []).
Proof.
  assert (∀ new, Forall (well_formed_call name tags metadata C) (bulk_calls new) →
                 C ≤ 0 → bulk_calls new = []) as Hnone.
  { intros new Hwf HC. destruct (bulk_calls new) as [|c cs]; [done|].
    apply Forall_inv in Hwf. unfold well_formed_call in Hwf. lia. }
  cut (∃ new, (log_async api records name tags metadata C verbose tr).1 = tr ++ new
              ∧ Forall (well_formed_call name tags metadata C) (bulk_calls new)).
  { intros (new & Htr & Hwf). exists new. eauto. }
  destruct (decide (name = "")) as [Hname|Hname];
    [|destruct (name_matches name) eqn:Hmatch].
  { rewrite log_async_name_refused by auto. exists []. by rewrite app_nil_r. }
  2:{ rewrite log_async_name_refused by auto. exists []. by rewrite app_nil_r. }
  assert (Forall (well_formed_call name tags metadata C)
            (bulk_calls (warning_events C))) as Hwarn
    by (by rewrite bulk_calls_warning_events).
  destruct (as_list records) as [[|o os]|e] eqn:Hl.
  - rewrite (log_async_empty_batch _ _ _ _ _ _ _ _ Hname Hmatch Hl). by eexists.
  - destruct (dispatch (ob_type o)) as [[bulk_cls creation_cls]|e] eqn:Hd.
    2:{ rewrite (log_async_dispatch_refused _ _ _ _ _ _ _ _ _ _ _ Hname Hmatch Hl Hd).
        by eexists. }
    assert (0 < Z.of_nat (length (o :: os))) as HN by (simpl; lia).
    destruct (Z.lt_trichotomy C 0) as [HC|[->|HC]].
    + rewrite (log_async_accepted _ _ _ _ _ _ _ _ (o :: os) o bulk_cls creation_cls []
                 Hname Hmatch Hl eq_refl Hd
                 (range_negative_step _ _ (Nat2Z.is_nonneg _) HC)).
      simpl for_each. unfold ret. eexists. rewrite <- !app_assoc. split; [done|].
      rewrite !bulk_calls_app, bulk_calls_warning_events, bulk_calls_closing_events.
      by simpl.
    + erewrite log_async_range_refused;
        [|exact Hname|exact Hmatch|exact Hl|reflexivity|exact Hd|reflexivity].
      eexists. split; [done|]. rewrite bulk_calls_app, bulk_calls_warning_events.
      by simpl.
    + rewrite (log_async_accepted _ _ _ _ _ _ _ _ (o :: os) o bulk_cls creation_cls _
                 Hname Hmatch Hl eq_refl Hd (range_positive_step _ _ HN HC)).
      destruct (for_each_calls_well_formed (o :: os) name tags metadata C bulk_cls
                  creation_cls
                  (map (λ k : nat, Z.of_nat k * C)
                     (seq 0 (Z.to_nat (n_chunks (Z.of_nat (length (o :: os))) C))))
                  (0, 0)
                  (tr ++ warning_events C
                      ++ [EvTqdm (length (o :: os)) (negb verbose)]))
        as (new & Htr & Hwf).
      { apply Forall_forall. intros i Hi.
        apply list_elem_of_In, in_map_iff in Hi as (k & <- & Hk%in_seq).
        pose proof (n_chunks_ceiling (Z.of_nat (length (o :: os))) C HC).
        pose proof (chunk_at_length (o :: os) C k HC ltac:(nia)) as Hlen.
        unfold chunk_at in Hlen.
        replace (Z.of_nat k * C + C) with ((Z.of_nat k + 1) * C) by lia.
        rewrite Hlen. nia. }
      destruct (for_each _ _ _ _) as [tr' [totals|e]]; cbn [fst] in Htr; subst tr'.
      * eexists. cbn [fst]. rewrite <- !app_assoc. split; [done|].
        rewrite !bulk_calls_app, bulk_calls_warning_events, bulk_calls_closing_events.
        simpl. by rewrite app_nil_r.
      * eexists. cbn [fst]. rewrite <- !app_assoc. split; [done|].
        rewrite !bulk_calls_app, bulk_calls_warning_events. by simpl.
  - rewrite (log_async_not_iterable _ _ _ _ _ _ _ _ _ Hname Hmatch Hl). by eexists.
Qed.


End UploadMore.

(** ** Workspaces and the construction of an [Api] *)

Section ConstructionFacts.
Context `{Collaborators} `{Host}.

(** After a [set_workspace] that returns, the workspace read back is the
    one that was set, and no other header has changed. *)
Lemma set_workspace_read_back (user : User) (w : string) (hdrs hdrs' : dict) :
  set_workspace user (Some w) hdrs = Returns hdrs' →
  default (user_username user) (hdrs' !! RUBRIX_WORKSPACE_HEADER_NAME) = w
  ∧ ∀ k, k ≠ RUBRIX_WORKSPACE_HEADER_NAME → hdrs' !! k = hdrs !! k.
Proof.
  unfold set_workspace. intros Hset.
  case_bool_decide as Hcur.
  - case_bool_decide as Huser.
    + injection Hset as <-. rewrite lookup_insert_eq. split; [done|].
      intros k Hk. by rewrite lookup_insert_ne, lookup_delete_ne.
    + destruct (match user_workspaces user with
                | Some ws => bool_decide (w ∉ ws)
                | None => false
                end); [done|].
      injection Hset as <-. rewrite lookup_insert_eq. split; [done|].
      intros k Hk. by rewrite lookup_insert_ne.
  - injection Hset as <-. split; [|done]. by rewrite <- Hcur.
Qed.

(** X7: after [set_workspace(w)] returns, [get_workspace()] gives [w], also
    when [w] is the user's own name, and the other headers of the client
    are as they were. *)
Theorem set_workspace_then_get (api : Api) (user : User) (w : string)
    (hdrs' : dict) :
  username api = user_username user →
  set_workspace user (Some w) (headers api) = Returns hdrs' →
  get_workspace {| base_url := base_url api; headers := hdrs';
                   username := username api; agent_loop := agent_loop api |} = w
  ∧ ∀ k, k ≠ RUBRIX_WORKSPACE_HEADER_NAME → hdrs' !! k = headers api !! k.
Proof.
  intros Huser Hset. destruct (set_workspace_read_back _ _ _ _ Hset) as [Hw Hframe].
  split; [|done]. unfold get_workspace. cbn [username headers]. by rewrite Huser.
Qed.

(** X8: [set_workspace] raises in two cases only: without a workspace, and
    for a workspace that is neither the current one nor the user's own name
    and is missing from the workspaces of the user; a user without a list
    of workspaces may set any workspace, and the current workspace is
    accepted without being looked up. *)
Theorem set_workspace_refusals (user : User) (workspace : option string) (hdrs : dict) :
  returned (set_workspace user workspace hdrs) = false
  ↔ workspace = None
    ∨ ∃ w ws, workspace = Some w
              ∧ w ≠ default (user_username user) (hdrs !! RUBRIX_WORKSPACE_HEADER_NAME)
              ∧ w ≠ user_username user
              ∧ user_workspaces user = Some ws
              ∧ w ∉ ws.
Proof.
  unfold set_workspace. destruct workspace as [w|].
  2:{ split; [by left|done]. }
  split.
  - intros Hret. right.
    case_bool_decide as Hcur; [|done].
    case_bool_decide as Huser; [done|].
    destruct (user_workspaces user) as [ws|]; [|done].
    case_bool_decide as Hws; [|done]. by exists w, ws.
  - intros [|(w' & ws & [= <-] & Hcur & Huser & Hws & Hnotin)]; [done|].
    rewrite bool_decide_eq_true_2 by done.
    rewrite bool_decide_eq_false_2 by done.
    rewrite Hws. by rewrite bool_decide_eq_true_2.
Qed.

Lemma sub_trailing_slash_appended (u : string) :
  sub_trailing_slash (u +:+ "/") = u.
Proof.
  induction u as [|a u IH]; [done|].
  change (String a u +:+ "/") with (String a (u +:+ "/")).
  cbn [sub_trailing_slash].
  replace (String.eqb (u +:+ "/") "") with false
    by (symmetry; apply String.eqb_neq; by destruct u).
  replace (String.eqb (u +:+ "/") newline) with false.
  2:{ symmetry. apply String.eqb_neq. by destruct u as [|b [|c u]]. }
  rewrite andb_false_r. by rewrite IH.
Qed.

(** X9: an [Api] built with a URL that ends with a slash has that URL
    without the slash as its base URL, whatever the environment holds;
    built without a URL and without [RUBRIX_API_URL] in the environment,
    its base URL is the local default. *)
Theorem Api_connect_base_url (args : init_args) (s : session) :
  Api_connect args = Returns s →
  (∀ u, arg_api_url args = Some (u +:+ "/") → s_base_url s = u)
  ∧ (arg_api_url args = None → environ !! "RUBRIX_API_URL" = None →
     s_base_url s = "http://localhost:6900").
Proof.
  unfold Api_connect. intros Hs.
  destruct (whoami _ _ _) as [user|e]; [|done].
  destruct (match resolve_workspace args with
            | Some w => set_workspace user (Some w) _
            | None => Returns _
            end) as [hdrs|e]; [|done].
  injection Hs as <-. cbn [s_base_url]. unfold resolve_api_url. split.
  - intros u Hu. rewrite Hu. unfold or_else.
    rewrite bool_decide_eq_false_2 by (by destruct u).
    apply sub_trailing_slash_appended.
  - intros Hnone Henv. rewrite Hnone. unfold or_else, getenv. by rewrite Henv.
Qed.

End ConstructionFacts.

(** ** The default client of the module *)

Section DefaultClient.
Context `{Collaborators}.

Lemma Api_init_refused args (p : process) (e : exn) :
  connect args = Raises e → Api_init args p = (p, Raises e).
Proof.
  intros Hc. unfold Api_init. rewrite bind_run. unfold lift. by rewrite Hc.
Qed.

Lemma Api_init_connected args (p : process) (s : session) :
  connect args = Returns s →
  ∃ a, (Api_init args p).2 = Returns a
       ∧ base_url a = s_base_url s ∧ headers a = s_headers s
       ∧ username a = s_username s
       ∧ __ACTIVE_API__ (Api_init args p).1 = __ACTIVE_API__ p.
Proof.
  intros Hc. unfold Api_init. rewrite bind_run. unfold lift. rewrite Hc.
  rewrite bind_run. unfold setup_loop_in_thread.
  destruct (__LOOP__ p); by eexists.
Qed.

Lemma Api_init_keeps_active args (p : process) :
  __ACTIVE_API__ (Api_init args p).1 = __ACTIVE_API__ p.
Proof.
  destruct (connect args) as [s|e] eqn:Hc.
  - by destruct (Api_init_connected args p s Hc) as (a & _ & _ & _ & _ & Hact).
  - by rewrite (Api_init_refused args p e Hc).
Qed.

Lemma Api_log_keeps_active api kwargs background (p : process) :
  __ACTIVE_API__ (Api_log api kwargs background p).1 = __ACTIVE_API__ p.
Proof.
  destruct background; [by rewrite Api_log_background|by rewrite Api_log_blocking].
Qed.

Lemma active_api_kept (p : process) (a : Api) :
  __ACTIVE_API__ p = Some a → active_api p = (p, Returns a).
Proof. intros Ha. unfold active_api. by rewrite Ha. Qed.

Lemma perform_keeps_active (c : call) (p : process) (a : Api) :
  (∀ args, c ≠ CallInit args) →
  __ACTIVE_API__ p = Some a → __ACTIVE_API__ (perform c p) = Some a.
Proof.
  intros Hc Ha. destruct c as [args| |kwargs background|args|i kwargs background];
    unfold perform.
  - by destruct (Hc args).
  - by rewrite (active_api_kept p a Ha).
  - unfold log. rewrite bind_run, (active_api_kept p a Ha).
    by rewrite Api_log_keeps_active.
  - by rewrite Api_init_keeps_active.
  - destruct (apis p !! i); [|done]. by rewrite Api_log_keeps_active.
Qed.

(** X10: a construction that fails changes nothing: [Api(...)] and [init]
    raise the error of the connection and leave the process as it was, and
    so do [active_api()] and the [log] of the module when no default
    client exists yet: nothing is submitted and no loop is started. *)
Theorem failed_construction_changes_nothing args kwargs background (p : process)
    (e : exn) :
  (connect args = Raises e →
   Api_init args p = (p, Raises e) ∧ init args p = (p, Raises e))
  ∧ (__ACTIVE_API__ p = None → connect default_init_args = Raises e →
     active_api p = (p, Raises e) ∧ log kwargs background p = (p, Raises e)).
Proof.
  split.
  - intros Hc. split; [by apply Api_init_refused|].
    unfold init. by rewrite bind_run, (Api_init_refused args p e Hc).
  - intros Hnone Hc.
    assert (active_api p = (p, Raises e)) as Hact.
    { unfold active_api. rewrite Hnone, bind_run.
      by rewrite (Api_init_refused default_init_args p e Hc). }
    split; [done|]. unfold log. by rewrite bind_run, Hact.
Qed.

(** X11: once a default client exists, [active_api()] returns it, without
    building another, after any calls that do not go through [init]:
    logging and building other clients leave the default client in
    place. *)
Theorem active_api_is_stable (cs : list call) (p : process) (a : Api) :
  __ACTIVE_API__ p = Some a →
  (∀ args, CallInit args ∉ cs) →
  active_api (run_program cs p) = (run_program cs p, Returns a).
Proof.
  intros Ha Hcs. apply active_api_kept. revert p Ha.
  induction cs as [|c cs IH]; intros p Ha; [done|].
  simpl. apply IH.
  - intros args Hin. apply (Hcs args). by apply list_elem_of_further.
  - apply perform_keeps_active; [|done].
    intros args ->. apply (Hcs args). apply list_elem_of_here.
Qed.

(** X12: [init] with a connection that succeeds replaces the default
    client, whether one existed or not: [active_api()] then returns the
    client built by [init], on the session of that connection. *)
Theorem init_replaces_default args (p : process) (s : session) :
  connect args = Returns s →
  ∃ a, (init args p).2 = Returns ()
       ∧ active_api (init args p).1 = ((init args p).1, Returns a)
       ∧ base_url a = s_base_url s ∧ headers a = s_headers s
       ∧ username a = s_username s.
Proof.
  intros Hc. destruct (Api_init_connected args p s Hc) as (a & Ha & Hb & Hh & Hu & _).
  exists a. unfold init. rewrite bind_run.
  destruct (Api_init args p) as [p' r]. cbn [snd] in Ha. subst r. cbn [fst snd].
  by split_and!.
Qed.

End DefaultClient.

Section ConstructionOnHost.
Context `{Collaborators} `{Host}.

(** X13: when the connection of [Api.__init__] is the one of lines 135-147,
    an [Api] built with a workspace, given or found in [RUBRIX_WORKSPACE],
    reports that workspace; and when the workspace is refused for the user,
    the construction raises and the process is left as it was, with no
    loop started. *)
Theorem Api_init_with_workspace args (p : process) (w : string) :
  (∀ args', connect args' = Api_connect args') →
  resolve_workspace args = Some w →
  (∀ a, (Api_init args p).2 = Returns a → get_workspace a = w)
  ∧ (∀ user ws,
       whoami (resolve_api_url args) (resolve_api_key args) (arg_timeout args)
       = Returns user →
       w ≠ default (user_username user)
             (client_headers (resolve_api_url args) (resolve_api_key args)
                (arg_timeout args) !! RUBRIX_WORKSPACE_HEADER_NAME) →
       w ≠ user_username user →
       user_workspaces user = Some ws → w ∉ ws →
       Api_init args p
       = (p, Raises (plain_exception [Lit "Wrong provided workspace "; FStr w]))).
Proof.
  intros Hconn Hw. split.
  - intros a Ha. destruct (connect args) as [s|e] eqn:Hc.
    2:{ by rewrite (Api_init_refused args p e Hc) in Ha. }
    destruct (Api_init_connected args p s Hc) as (a' & Ha' & _ & Hh & Hu & _).
    rewrite Ha in Ha'. injection Ha' as <-.
    rewrite Hconn in Hc. unfold Api_connect in Hc. rewrite Hw in Hc.
    destruct (whoami _ _ _) as [user|e]; [|done].
    destruct (set_workspace user (Some w) _) as [hdrs'|e] eqn:Hset; [|done].
    injection Hc as <-. cbn [s_headers s_username] in Hh, Hu.
    unfold get_workspace. rewrite Hh, Hu.
    by destruct (set_workspace_read_back _ _ _ _ Hset).
  - intros user ws Huser Hcur Hown Hws Hnotin.
    apply Api_init_refused. rewrite Hconn. unfold Api_connect.
    rewrite Huser, Hw. unfold set_workspace.
    rewrite bool_decide_eq_true_2 by done.
    rewrite bool_decide_eq_false_2 by done.
    rewrite Hws. by rewrite bool_decide_eq_true_2.
Qed.

End ConstructionOnHost.

(** ** Loading a dataset and computing a metric *)

Section SortedFacts.
Context {A K : Type} (lt : K → K → outcome bool) (key : A → K) (b : A → A → bool).
Hypothesis b_asym : ∀ y z, b y z = true → b z y = false.

Local Abbreviation not_after := (λ y z : A, b z y = false).

Lemma insert_by_sorted (x : A) (l : list A) :
  (∀ y, y ∈ l → lt (key y) (key x) = Returns (b y x)) →
  Sorted not_after l →
  ∃ r, insert_by lt key x l = Returns r
       ∧ r ≡ₚ x :: l
       ∧ Sorted not_after r
       ∧ ∀ z, HdRel not_after z l → b x z = false → HdRel not_after z r.
Proof.
  induction l as [|y l IH]; intros Hlt Hs.
  - exists [x]. split_and!; [done|done|by repeat constructor|].
    intros z _ Hz. by constructor.
  - simpl. rewrite (Hlt y) by apply list_elem_of_here.
    destruct (b y x) eqn:Hyx.
    + apply Sorted_inv in Hs as [Hs Hhd].
      destruct IH as (r & -> & Hperm & Hsr & Hhdr); [|done|].
      { intros z Hz. apply Hlt. by apply list_elem_of_further. }
      exists (y :: r). split_and!; [done| | |].
      * rewrite Hperm. apply perm_swap.
      * constructor; [done|]. apply Hhdr; [done|]. by apply b_asym.
      * intros z Hz _. apply HdRel_inv in Hz. by constructor.
    + exists (x :: y :: l). split_and!; [done|done| |].
      * constructor; [done|]. by constructor.
      * intros z _ Hz. by constructor.
Qed.

(** With a comparison that answers on the keys of the list, [sorted]
    returns the list rearranged so that no element comes after a smaller
    one. *)
Lemma sorted_sorted (l : list A) :
  (∀ y z, y ∈ l → z ∈ l → lt (key y) (key z) = Returns (b y z)) →
  ∃ r, sorted lt key l = Returns r ∧ r ≡ₚ l ∧ Sorted not_after r.
Proof.
  induction l as [|x l IH]; intros Hlt.
  - exists []. by split_and!.
  - destruct IH as (s & Hs & Hperm & Hsorted).
    { intros y z Hy Hz. apply Hlt; by apply list_elem_of_further. }
    simpl. rewrite Hs.
    destruct (insert_by_sorted x s) as (r & Hr & Hpr & Hsr & _); [|done|].
    { intros y Hy. apply Hlt; [|apply list_elem_of_here].
      apply list_elem_of_further. by rewrite <- Hperm. }
    exists r. split_and!; [done| |done]. by rewrite Hpr, Hperm.
Qed.

End SortedFacts.

Lemma Sorted_on {A} (P : A → Prop) (R R' : A → A → Prop) (l : list A) :
  (∀ x y, P x → P y → R x y → R' x y) →
  Forall P l → Sorted R l → Sorted R' l.
Proof.
  intros Himpl Hall Hs. induction Hs as [|x l Hs IH Hhd]; [constructor|].
  apply Forall_cons in Hall as [Hx Hall]. constructor; [by apply IH|].
  destruct Hhd as [|y l' Hxy]; constructor.
  apply Forall_cons in Hall as [Hy _]. by apply Himpl.
Qed.

Lemma String_ltb_asym (s t : string) : String.ltb s t = true → String.ltb t s = false.
Proof.
  unfold String.ltb. rewrite (String.compare_antisym t s).
  by destruct (String.compare s t).
Qed.

Lemma id_ltb_asym (x y : loaded_record) : id_ltb x y = true → id_ltb y x = false.
Proof.
  unfold id_ltb. destruct (lr_id x), (lr_id y); try done.
  - intros Hlt. apply Z.ltb_ge. apply Z.ltb_lt in Hlt. lia.
  - apply String_ltb_asym.
Qed.

Lemma has_str_false (l : list loaded_record) :
  has_str l = false → Forall (λ x, ∃ a, lr_id x = IdInt a) l.
Proof.
  induction l as [|x l IH]; [constructor|]. simpl. intros Hl.
  apply orb_false_iff in Hl as [Hx Hl]. constructor; [|by apply IH].
  destruct (lr_id x); [by eexists|done].
Qed.

Lemma has_int_false (l : list loaded_record) :
  has_int l = false → Forall (λ x, ∃ s, lr_id x = IdStr s) l.
Proof.
  induction l as [|x l IH]; [constructor|]. simpl. intros Hl.
  apply orb_false_iff in Hl as [Hx Hl]. constructor; [|by apply IH].
  destruct (lr_id x); [done|by eexists].
Qed.

(** Identifiers of one kind are sorted by [<]. *)
Lemma sorted_one_kind (l : list loaded_record) :
  has_int l && has_str l = false →
  ∃ r, sorted id_lt lr_id l = Returns r ∧ r ≡ₚ l ∧ Sorted id_le r.
Proof.
  intros Hkind. apply andb_false_iff in Hkind as [Hint|Hstr].
  - apply has_int_false in Hint.
    destruct (sorted_sorted id_lt lr_id id_ltb id_ltb_asym l) as (r & Hr & Hperm & Hs).
    { intros y z Hy Hz.
      destruct (proj1 (Forall_forall _ _) Hint y Hy) as [s Hs].
      destruct (proj1 (Forall_forall _ _) Hint z Hz) as [t Ht].
      unfold id_ltb. by rewrite Hs, Ht. }
    exists r. split_and!; [done|done|].
    apply (Sorted_on (λ x, ∃ s, lr_id x = IdStr s) (λ y z, id_ltb z y = false)); [|by rewrite Hperm|done].
    intros x y [s Hs'] [t Ht]. unfold id_ltb, id_le. by rewrite Hs', Ht.
  - apply has_str_false in Hstr.
    destruct (sorted_sorted id_lt lr_id id_ltb id_ltb_asym l) as (r & Hr & Hperm & Hs).
    { intros y z Hy Hz.
      destruct (proj1 (Forall_forall _ _) Hstr y Hy) as [a Ha].
      destruct (proj1 (Forall_forall _ _) Hstr z Hz) as [c Hc].
      unfold id_ltb. by rewrite Ha, Hc. }
    exists r. split_and!; [done|done|].
    apply (Sorted_on (λ x, ∃ a, lr_id x = IdInt a) (λ y z, id_ltb z y = false)); [|by rewrite Hperm|done].
    intros x y [a Ha] [c Hc]. unfold id_ltb, id_le. rewrite Ha, Hc.
    intros Hlt. apply Z.ltb_ge in Hlt. lia.
Qed.

(** Integers and strings together cannot be sorted by [<]. *)
Lemma sorted_two_kinds (l : list loaded_record) :
  has_int l = true → has_str l = true →
  ∃ e, sorted id_lt lr_id l = Raises e ∧ exc_type e = TypeError.
Proof.
  induction l as [|x l IH]; [done|]. intros Hint Hstr.
  destruct (has_int l && has_str l) eqn:Hkind.
  - apply andb_true_iff in Hkind as [Hi Hs].
    destruct (IH Hi Hs) as (e & He & Hty). exists e. simpl. by rewrite He.
  - destruct (sorted_one_kind l Hkind) as (s & Hs & Hperm & _).
    simpl. rewrite Hs. simpl in Hint, Hstr.
    assert (∃ y s', s = y :: s' ∧ y ∈ l
                    ∧ match lr_id y, lr_id x with
                      | IdInt _, IdStr _ | IdStr _, IdInt _ => True
                      | _, _ => False
                      end) as (y & s' & -> & Hy & Hxy).
    { destruct s as [|y s'].
      - apply Permutation_nil in Hperm. subst l. simpl in *.
        rewrite !orb_false_r in *. by destruct (lr_id x).
      - exists y, s'. split; [done|].
        assert (y ∈ l) as Hy by (rewrite <- Hperm; apply list_elem_of_here).
        split; [done|].
        apply andb_false_iff in Hkind as [Hi|Hs'].
        + destruct (proj1 (Forall_forall _ _) (has_int_false l Hi) y Hy) as [t Ht].
          rewrite Ht, Hi, orb_false_r in *. by destruct (lr_id x).
        + destruct (proj1 (Forall_forall _ _) (has_str_false l Hs') y Hy) as [a Ha].
          rewrite Ha, Hs', orb_false_r in *. by destruct (lr_id x). }
    simpl. destruct (lr_id y), (lr_id x); try done; by eexists.
Qed.

Section LoadingFacts.
Context `{Server}.

Lemma requests_app (t1 t2 : list server_event) :
  requests (t1 ++ t2) = requests t1 ++ requests t2.
Proof. apply omap_app. Qed.

(** The records come back sorted, whatever their identifiers. *)
Lemma sort_by_id_run (records : list loaded_record) (tr : list server_event) :
  ∃ rs, sort_by_id records tr = (tr, Returns rs)
        ∧ rs ≡ₚ records
        ∧ (has_int records && has_str records = false → Sorted id_le rs)
        ∧ (has_int records && has_str records = true → Sorted str_id_le rs).
Proof.
  unfold sort_by_id, try_except, lift.
  destruct (has_int records && has_str records) eqn:Hkind.
  - apply andb_true_iff in Hkind as [Hi Hs].
    destruct (sorted_two_kinds records Hi Hs) as (e & -> & ->).
    destruct (sorted_sorted str_lt (λ x, str_of_id (lr_id x))
                (λ y z, String.ltb (str_of_id (lr_id y)) (str_of_id (lr_id z)))
                (λ y z, String_ltb_asym _ _) records)
      as (rs & -> & Hperm & Hsorted); [done|].
    exists rs. by split_and!.
  - destruct (sorted_one_kind records Hkind) as (rs & -> & Hperm & Hsorted).
    exists rs. by split_and!.
Qed.

(** X14: a load that the server answers returns, in the dataset class of
    the task, the records the server gave, each once, sorted by identifier;
    when integer and string identifiers are mixed, they are sorted by the
    text of the identifier instead, and the load does not fail.  Two
    requests are made: for the dataset, then for its records. *)
Theorem load_returns_sorted_records (name : string) (query : option string)
    (ids : option (list record_id)) (limit : option Z) (id_from : option string)
    (as_pandas : option bool) (tr : list server_event) (task : TaskType)
    (api : task_api) (request_class : query_class) (dataset_cls : dataset_class)
    (records : list loaded_record) :
  as_pandas ≠ Some true →
  get_dataset (requests tr) name = Returns task →
  task_config task = Some (api, request_class, dataset_cls) →
  get_dataset_data (requests tr ++ [EvGetDataset name]) api name
    {| rq_class := request_class; rq_ids := ids; rq_query_text := query |}
    limit id_from
  = Returns records →
  ∃ rs,
    (load name query ids limit id_from as_pandas tr).2
    = Returns {| ds_class := dataset_cls; ds_records := rs |}
    ∧ rs ≡ₚ records
    ∧ (has_int records && has_str records = false → Sorted id_le rs)
    ∧ (has_int records && has_str records = true → Sorted str_id_le rs)
    ∧ requests (load name query ids limit id_from as_pandas tr).1
      = requests tr
        ++ [EvGetDataset name;
            EvData api name
              {| rq_class := request_class; rq_ids := ids; rq_query_text := query |}
              limit id_from].
Proof.
  intros Hpandas Htask Hconfig Hdata.
  cut (∃ rs tr',
         load name query ids limit id_from as_pandas tr
         = (tr', Returns {| ds_class := dataset_cls; ds_records := rs |})
         ∧ rs ≡ₚ records
         ∧ (has_int records && has_str records = false → Sorted id_le rs)
         ∧ (has_int records && has_str records = true → Sorted str_id_le rs)
         ∧ requests tr'
           = requests tr
             ++ [EvGetDataset name;
                 EvData api name
                   {| rq_class := request_class; rq_ids := ids;
                      rq_query_text := query |} limit id_from]).
  { intros (rs & tr' & -> & Hperm & Hone & Htwo & Hreq). by exists rs. }
  unfold load. rewrite bind_run.
  assert (∃ tr0, (match as_pandas with
                  | Some false =>
                      λ tr, (tr ++ [EvWarn "FutureWarning" as_pandas_warning], Returns ())
                  | Some true => raise as_pandas_error
                  | None => ret ()
                  end) tr = (tr0, Returns ()) ∧ requests tr0 = requests tr)
    as (tr0 & -> & Hreq).
  { destruct as_pandas as [[|]|]; [done| |by eexists].
    eexists. split; [done|]. rewrite requests_app. simpl. by rewrite app_nil_r. }
  rewrite bind_run. unfold ask at 1. rewrite Hreq, Htask, Hconfig.
  rewrite bind_run. unfold ask at 1. rewrite requests_app, Hreq. simpl requests at 2.
  rewrite Hdata, bind_run.
  destruct (sort_by_id_run records
              ((tr0 ++ [EvGetDataset name])
                 ++ [EvData api name
                       {| rq_class := request_class; rq_ids := ids;
                          rq_query_text := query |} limit id_from]))
    as (rs & -> & Hperm & Hone & Htwo).
  exists rs. eexists. unfold ret. split_and!; try done.
  rewrite !requests_app, Hreq. simpl. by rewrite <- app_assoc.
Qed.

(** X15: [load] with [as_pandas=True] raises a [ValueError] before any
    request; a dataset whose task is not one of the three the client loads
    gives a [ValueError] after the request for the dataset, and an error of
    that request is raised as it is: in both cases the records are never
    requested. *)
Theorem load_refusals (name : string) (query : option string)
    (ids : option (list record_id)) (limit : option Z) (id_from : option string)
    (as_pandas : option bool) (tr : list server_event) :
  load name query ids limit id_from (Some true) tr = (tr, Raises as_pandas_error)
  ∧ (as_pandas ≠ Some true →
     ∀ task, get_dataset (requests tr) name = Returns task →
             task_config task = None →
             (load name query ids limit id_from as_pandas tr).2
             = Raises (unsupported_task_error task)
             ∧ requests (load name query ids limit id_from as_pandas tr).1
               = requests tr ++ [EvGetDataset name])
  ∧ (as_pandas ≠ Some true →
     ∀ e, get_dataset (requests tr) name = Raises e →
          (load name query ids limit id_from as_pandas tr).2 = Raises e
          ∧ requests (load name query ids limit id_from as_pandas tr).1
            = requests tr ++ [EvGetDataset name]).
Proof.
  split; [done|].
  assert (as_pandas ≠ Some true →
          ∃ tr0, (match as_pandas with
                  | Some false =>
                      λ tr, (tr ++ [EvWarn "FutureWarning" as_pandas_warning], Returns ())
                  | Some true => raise as_pandas_error
                  | None => ret ()
                  end) tr = (tr0, Returns ()) ∧ requests tr0 = requests tr) as Hfirst.
  { intros Hpandas. destruct as_pandas as [[|]|]; [done| |by eexists].
    eexists. split; [done|]. rewrite requests_app. simpl. by rewrite app_nil_r. }
  split; intros Hpandas; destruct (Hfirst Hpandas) as (tr0 & Hrun & Hreq).
  - intros task Htask Hconfig.
    assert (load name query ids limit id_from as_pandas tr
            = (tr0 ++ [EvGetDataset name], Raises (unsupported_task_error task)))
      as ->.
    { unfold load. rewrite bind_run, Hrun.
      rewrite bind_run. unfold ask at 1. by rewrite Hreq, Htask, Hconfig. }
    cbn [fst snd]. split; [done|]. rewrite requests_app, Hreq. by simpl.
  - intros e Hget.
    assert (load name query ids limit id_from as_pandas tr
            = (tr0 ++ [EvGetDataset name], Raises e)) as ->.
    { unfold load. rewrite bind_run, Hrun.
      rewrite bind_run. unfold ask at 1. by rewrite Hreq, Hget. }
    cbn [fst snd]. split; [done|]. rewrite requests_app, Hreq. by simpl.
Qed.

Lemma find_absent (metric : string) (ms : list MetricInfo) :
  Forall (λ m, mi_id m ≠ metric) ms →
  List.find (λ m, String.eqb (mi_id m) metric) ms = None.
Proof.
  induction 1 as [|m ms Hm _ IH]; [done|]. simpl.
  by rewrite (proj2 (String.eqb_neq _ _) Hm).
Qed.

Lemma find_first (metric : string) (before after : list MetricInfo) (m : MetricInfo) :
  Forall (λ m', mi_id m' ≠ metric) before → mi_id m = metric →
  List.find (λ m, String.eqb (mi_id m) metric) (before ++ m :: after) = Some m.
Proof.
  induction 1 as [|m' ms Hm' _ IH]; intros Hm; simpl.
  - by rewrite (proj2 (String.eqb_eq _ _) Hm).
  - rewrite (proj2 (String.eqb_neq _ _) Hm'). by apply IH.
Qed.

(** The run of [get_metric] on a server that answers. *)
Lemma get_metric_run (name metric : string) (tr : list server_event)
    (task : TaskType) (ms : list MetricInfo) :
  get_dataset (requests tr) name = Returns task →
  get_dataset_metrics (requests tr ++ [EvGetDataset name]) name task = Returns ms →
  get_metric name metric tr
  = (tr ++ [EvGetDataset name; EvDatasetMetrics name task],
     Returns (List.find (λ m, String.eqb (mi_id m) metric) ms)).
Proof.
  intros Htask Hms. unfold get_metric, dataset_metrics.
  rewrite !bind_run. unfold ask at 1. rewrite Htask.
  unfold ask at 1. rewrite requests_app. simpl requests at 2. rewrite Hms.
  unfold ret. by rewrite <- app_assoc.
Qed.

(** X16: [get_metric] gives the first metric of the dataset that carries
    the identifier, and [None], without raising, when no metric carries
    it. *)
Theorem get_metric_first_or_none (name metric : string) (tr : list server_event)
    (task : TaskType) (ms : list MetricInfo) :
  get_dataset (requests tr) name = Returns task →
  get_dataset_metrics (requests tr ++ [EvGetDataset name]) name task = Returns ms →
  (Forall (λ m, mi_id m ≠ metric) ms →
   (get_metric name metric tr).2 = Returns None)
  ∧ (∀ before m after,
       ms = before ++ m :: after →
       Forall (λ m', mi_id m' ≠ metric) before → mi_id m = metric →
       (get_metric name metric tr).2 = Returns (Some m)).
Proof.
  intros Htask Hms. rewrite (get_metric_run _ _ _ _ _ Htask Hms). cbn [snd]. split.
  - intros Habsent. by rewrite find_absent.
  - intros before m after -> Hbefore Hm. by rewrite find_first.
Qed.

(** X17: [compute_metric] for an identifier that no metric of the dataset
    carries raises the assertion error after three requests (the dataset,
    the dataset again, its metrics) and never asks for the computation;
    for an identifier that a metric carries, it asks for the computation
    with the task of its first request and returns the results with the
    fields of the first such metric. *)
Theorem compute_metric_needs_known_metric (name metric : string) (args : metric_args)
    (tr : list server_event) (task task' : TaskType) (ms : list MetricInfo) :
  get_dataset (requests tr) name = Returns task →
  get_dataset (requests tr ++ [EvGetDataset name]) name = Returns task' →
  get_dataset_metrics (requests tr ++ [EvGetDataset name; EvGetDataset name]) name task'
  = Returns ms →
  (Forall (λ m, mi_id m ≠ metric) ms →
   compute_metric name metric args tr
   = (tr ++ [EvGetDataset name; EvGetDataset name; EvDatasetMetrics name task'],
      Raises (metric_not_found metric)))
  ∧ (∀ before m after results,
       ms = before ++ m :: after →
       Forall (λ m', mi_id m' ≠ metric) before → mi_id m = metric →
       compute_metric_results
         (requests tr ++ [EvGetDataset name; EvGetDataset name;
                          EvDatasetMetrics name task'])
         name task metric args
       = Returns results →
       compute_metric name metric args tr
       = (tr ++ [EvGetDataset name; EvGetDataset name; EvDatasetMetrics name task';
                 EvComputeMetric name task metric args],
          Returns {| mr_metric := m; mr_results := results |})).
Proof.
  intros Htask Htask' Hms.
  assert (get_metric name metric (tr ++ [EvGetDataset name])
          = (tr ++ [EvGetDataset name; EvGetDataset name; EvDatasetMetrics name task'],
             Returns (List.find (λ m, String.eqb (mi_id m) metric) ms))) as Hget.
  { rewrite (get_metric_run name metric _ task' ms).
    - by rewrite <- app_assoc.
    - by rewrite requests_app.
    - rewrite requests_app, <- app_assoc. exact Hms. }
  split.
  - intros Habsent. unfold compute_metric. rewrite bind_run. unfold ask at 1.
    rewrite Htask, bind_run, Hget, find_absent by done. done.
  - intros before m after results -> Hbefore Hm Hresults.
    unfold compute_metric. rewrite bind_run. unfold ask at 1.
    rewrite Htask, bind_run, Hget, find_first by done.
    rewrite bind_run. unfold ask at 1. rewrite requests_app. simpl requests at 2.
    rewrite Hresults. unfold ret. by rewrite <- app_assoc.
Qed.

End LoadingFacts.

(** ** The properties on the reference environment *)

Section Examples.
Import Reference.
Local Existing Instance pytype_eq_dec.

Lemma strict_from_client_accepts (c : creation_class) (o : pyobj) :
  ob_type o = source_class c → strict_from_client c o = Returns (to_creation c o).
Proof.
  intros Ho. unfold strict_from_client. by rewrite bool_decide_eq_true_2.
Qed.

Lemma batch_variant (t : pytype) (start n : nat) :
  Forall (λ o, ob_type o = t) (batch t start n).
Proof.
  unfold batch. apply Forall_forall. intros o Ho.
  by apply list_elem_of_In, in_map_iff in Ho as (k & <- & _).
Qed.

(** 1200 text classification records by chunks of 500: three calls of 500,
    500 and 200 records, and the response of their sums. *)
Lemma log_async_chunked_upload_witness :
  call_sizes
    (bulk_calls
       (log_async (H := env None) api0
          (Iterable (batch TextClassificationRecord 0 1200)) "example-dataset"
          None None 500 false []).1)
  = [500; 500; 200]%nat
  ∧ (log_async (H := env None) api0
       (Iterable (batch TextClassificationRecord 0 1200)) "example-dataset"
       None None 500 false []).2
    = Returns {| dataset := "example-dataset"; processed := 1200; failed := 0 |}.
Proof.
  destruct (log_async_chunked_upload (H := env None) api0
              (batch TextClassificationRecord 0 1200) "example-dataset" None None
              500 false TextClassificationRecord TextClassificationBulkData
              CreationTextClassificationRecord
              (to_creation CreationTextClassificationRecord)
              [answer 500; answer 500; answer 200] [])
    as (Hcalls & _ & _ & Hret & Hsizes).
  - intros Heq. apply (f_equal length) in Heq. vm_compute in Heq. lia.
  - apply batch_variant.
  - reflexivity.
  - lia.
  - discriminate.
  - reflexivity.
  - intros o Ho. by apply strict_from_client_accepts.
  - vm_compute. repeat split.
  - split.
    + rewrite Hcalls. apply Hsizes; [by vm_compute|reflexivity].
    + rewrite Hret. reflexivity.
Defined.

(** A mixed batch of two records by chunks of one: the first chunk is
    uploaded, then the conversion of the second record fails, with an error
    that is not an input error. *)
Lemma mixed_batch_uploads_first_chunk :
  call_sizes
    (bulk_calls
       (log_async (H := env None) api0
          (Iterable (batch TextClassificationRecord 0 1
                       ++ batch TokenClassificationRecord 1 1))
          "example-dataset" None None 1 false []).1)
  = [1%nat]
  ∧ ¬ input_error_without_call
        (log_async (H := env None) api0
           (Iterable (batch TextClassificationRecord 0 1
                        ++ batch TokenClassificationRecord 1 1))
           "example-dataset" None None 1 false []).
Proof.
  split; [reflexivity|]. intros (e & _ & _ & Hcalls).
  vm_compute in Hcalls. discriminate.
Qed.

(** Three text records, a token record, then a text record, by chunks of
    two: one call, for the first chunk, then the error of the conversion. *)
Lemma log_async_converts_by_first_type_witness :
  (log_async (H := env None) api0
     (Iterable (batch TextClassificationRecord 0 3
                  ++ {| ob_type := TokenClassificationRecord; ob_data := 3 |}
                  :: batch TextClassificationRecord 4 1))
     "example-dataset" None None 2 false []).2
  = Raises {| exc_type := ExternalError "AttributeError";
              exc_msg := [FType TokenClassificationRecord;
                          Lit " object has no such field"] |}
  ∧ length
      (bulk_calls
         (log_async (H := env None) api0
            (Iterable (batch TextClassificationRecord 0 3
                         ++ {| ob_type := TokenClassificationRecord; ob_data := 3 |}
                         :: batch TextClassificationRecord 4 1))
            "example-dataset" None None 2 false []).1)
    = 1%nat.
Proof.
  destruct (log_async_converts_by_first_type (H := env None) api0
              (batch TextClassificationRecord 0 3) (batch TextClassificationRecord 4 1)
              {| ob_type := TokenClassificationRecord; ob_data := 3 |}
              {| ob_type := TextClassificationRecord; ob_data := 0 |}
              "example-dataset" None None 2 false TextClassificationBulkData
              CreationTextClassificationRecord
              (to_creation CreationTextClassificationRecord)
              [answer 2]
              {| exc_type := ExternalError "AttributeError";
                 exc_msg := [FType TokenClassificationRecord;
                             Lit " object has no such field"] |} [])
    as (Hret & _ & Hlen).
  - reflexivity.
  - reflexivity.
  - lia.
  - discriminate.
  - reflexivity.
  - intros o Ho. apply strict_from_client_accepts.
    by apply (proj1 (Forall_forall _ _)
                (batch_variant TextClassificationRecord 0 3)).
  - reflexivity.
  - vm_compute. repeat split.
  - split; [exact Hret|]. apply Nat2Z.inj. rewrite Hlen. reflexivity.
Defined.

(** Five records by chunks of two on a server that refuses the second
    call: the first two calls are made, the third is not, and the error of
    the transport is raised. *)
Lemma log_async_transport_error_witness :
  (log_async (H := env (Some 1%nat)) api0
     (Iterable (batch TextClassificationRecord 0 5)) "example-dataset"
     None None 2 false []).2
  = Raises transport_error
  ∧ call_sizes
      (bulk_calls
         (log_async (H := env (Some 1%nat)) api0
            (Iterable (batch TextClassificationRecord 0 5)) "example-dataset"
            None None 2 false []).1)
    = [2; 2]%nat.
Proof.
  destruct (log_async_transport_error (H := env (Some 1%nat)) api0
              (batch TextClassificationRecord 0 5) "example-dataset" None None
              2 false TextClassificationRecord TextClassificationBulkData
              CreationTextClassificationRecord
              (to_creation CreationTextClassificationRecord)
              [call_for (H := env (Some 1%nat)) "example-dataset"
                 TextClassificationBulkData None None
                 (to_creation CreationTextClassificationRecord)
                 (batch TextClassificationRecord 0 2)]
              [call_for (H := env (Some 1%nat)) "example-dataset"
                 TextClassificationBulkData None None
                 (to_creation CreationTextClassificationRecord)
                 (batch TextClassificationRecord 4 1)]
              (call_for (H := env (Some 1%nat)) "example-dataset"
                 TextClassificationBulkData None None
                 (to_creation CreationTextClassificationRecord)
                 (batch TextClassificationRecord 2 2))
              [answer 2] transport_error [])
    as (Hrun & Hcalls).
  - discriminate.
  - apply batch_variant.
  - reflexivity.
  - lia.
  - discriminate.
  - reflexivity.
  - intros o Ho. by apply strict_from_client_accepts.
  - reflexivity.
  - vm_compute. repeat split.
  - reflexivity.
  - split; [by rewrite Hrun|]. rewrite Hcalls. reflexivity.
Defined.

(** Three records with a chunk size of -2: no call and a response of
    zeros. *)
Lemma log_async_negative_chunk_size_witness :
  (log_async (H := env None) api0 (Iterable (batch TextClassificationRecord 0 3))
     "example-dataset" None None (-2) false []).2
  = Returns {| dataset := "example-dataset"; processed := 0; failed := 0 |}
  ∧ bulk_calls
      (log_async (H := env None) api0 (Iterable (batch TextClassificationRecord 0 3))
         "example-dataset" None None (-2) false []).1
    = [].
Proof.
  destruct (log_async_negative_chunk_size (H := env None) api0
              {| ob_type := TextClassificationRecord; ob_data := 0 |}
              (batch TextClassificationRecord 1 2) "example-dataset" None None
              (-2) false
              (TextClassificationBulkData, CreationTextClassificationRecord) [])
    as (Hrun & Hcalls).
  - reflexivity.
  - discriminate.
  - reflexivity.
  - lia.
  - split; [|exact Hcalls].
    change (batch TextClassificationRecord 0 3)
      with ({| ob_type := TextClassificationRecord; ob_data := 0 |}
              :: batch TextClassificationRecord 1 2).
    by rewrite Hrun.
Defined.

(** A record of a class that derives from [TextClassificationRecord] is
    refused, in a batch and alone. *)
Lemma log_async_unknown_record_type_witness :
  (log_async (H := env None) api0
     (Iterable [ {| ob_type := Subclass "MyRecord" TextClassificationRecord;
                    ob_data := 0 |} ])
     "example-dataset" None None 500 false []).2
  = Raises (unknown_type_error (Subclass "MyRecord" TextClassificationRecord))
  ∧ (log_async (H := env None) api0
       (OneObject {| ob_type := Subclass "MyRecord" TextClassificationRecord;
                     ob_data := 0 |})
       "example-dataset" None None 500 false []).2
    = Raises (unknown_type_error (Subclass "MyRecord" TextClassificationRecord)).
Proof.
  destruct (log_async_unknown_record_type (H := env None) api0
              {| ob_type := Subclass "MyRecord" TextClassificationRecord;
                 ob_data := 0 |} [] "example-dataset" None None 500 false [])
    as (_ & _ & Hvalid & _).
  - unfold Record_args. simpl. rewrite !elem_of_cons, elem_of_nil.
    intros [?|[?|[?|[]]]]; discriminate.
  - destruct Hvalid as [Hbatch Hone]; [discriminate|reflexivity|].
    split; [exact Hbatch|]. apply Hone. reflexivity.
Defined.

(** An empty batch under a valid name. *)
Lemma log_async_empty_records_witness :
  (log_async (H := env None) api0 (Iterable []) "example-dataset" None None 500
     false []).2
  = Raises empty_records_error.
Proof.
  destruct (log_async_empty_records (H := env None) api0 "example-dataset"
              None None 500 false []) as (_ & _ & Hvalid).
  apply Hvalid; [discriminate|reflexivity].
Defined.

(** [Api.log] with an empty name in the background returns a future after
    one submission, and a blocking [Api.log] with a name that holds a space
    raises after one submission: neither call fails before submitting. *)
Lemma log_submits_before_validation :
  (Api_log (H := env None) api0
     (kwargs0 (Iterable (batch TextClassificationRecord 0 1)) "" 500) true
     initial_process).2
  = Returns (RetFuture 0)
  ∧ caller_trace
      (Api_log (H := env None) api0
         (kwargs0 (Iterable (batch TextClassificationRecord 0 1)) "" 500) true
         initial_process).1
    = [EvSubmit 0 0]
  ∧ ¬ fails_before_submission (H := env None) initial_process
        (Api_log (H := env None) api0
           (kwargs0 (Iterable (batch TextClassificationRecord 0 1)) "" 500) true
           initial_process)
  ∧ ¬ fails_before_submission (H := env None) initial_process
        (Api_log (H := env None) api0
           (kwargs0 (Iterable (batch TextClassificationRecord 0 1)) "my dataset" 500)
           false initial_process).
Proof.
  split_and!; [reflexivity|reflexivity|..].
  - intros (e & Hret & _). vm_compute in Hret. discriminate.
  - intros (e & _ & _ & Htrace & _). vm_compute in Htrace. discriminate.
Qed.

(** A name that holds a space: the blocking call raises the error of the
    pattern, the background call returns its future. *)
Lemma invalid_name_refused_by_coroutine_witness :
  (Api_log (H := env None) api0
     (kwargs0 (Iterable (batch TextClassificationRecord 0 1)) "my dataset" 500)
     false initial_process).2
  = Raises (name_pattern_error "my dataset")
  ∧ (Api_log (H := env None) api0
       (kwargs0 (Iterable (batch TextClassificationRecord 0 1)) "my dataset" 500)
       true initial_process).2
    = Returns (RetFuture 0).
Proof.
  destruct (invalid_name_refused_by_coroutine (H := env None) api0
              (kwargs0 (Iterable (batch TextClassificationRecord 0 1))
                 "my dataset" 500) initial_process)
    as (_ & _ & (Hblocking & _) & (Hbackground & _)).
  - right. reflexivity.
  - split; [exact Hblocking|exact Hbackground].
Defined.

(** A blocking call on a server that refuses the first call: the caller
    gets the error of the transport and the future is cancelled last. *)
Lemma Api_log_background_or_blocking_witness :
  (Api_log (H := env (Some 0%nat)) api0
     (kwargs0 (Iterable (batch TextClassificationRecord 0 1)) "example-dataset" 500)
     false initial_process).2
  = Raises transport_error
  ∧ last (caller_trace
            (Api_log (H := env (Some 0%nat)) api0
               (kwargs0 (Iterable (batch TextClassificationRecord 0 1))
                  "example-dataset" 500)
               false initial_process).1)
    = Some (EvCancel 0).
Proof.
  destruct (Api_log_background_or_blocking (H := env (Some 0%nat)) api0
              (kwargs0 (Iterable (batch TextClassificationRecord 0 1))
                 "example-dataset" 500) initial_process)
    as (_ & _ & _ & _ & _ & Hraises).
  apply (Hraises transport_error). reflexivity.
Defined.

(** The same call, seen from the agent: the error entry is recorded and the
    future is resolved with the error. *)
Lemma log_internal_logs_and_reraises_witness :
  (log_internal (H := env (Some 0%nat)) api0
     (kwargs0 (Iterable (batch TextClassificationRecord 0 1)) "example-dataset" 500)
     []).2
  = Raises transport_error
  ∧ last (log_internal (H := env (Some 0%nat)) api0
            (kwargs0 (Iterable (batch TextClassificationRecord 0 1))
               "example-dataset" 500) []).1
    = Some (EvLog ERROR
              (LogFailure
                 (kwargs0 (Iterable (batch TextClassificationRecord 0 1))
                    "example-dataset" 500)
                 (ExternalError "httpx.ConnectError") [Lit "connection refused"]
                 [[Lit "connection refused"]])).
Proof.
  destruct (log_internal_logs_and_reraises (H := env (Some 0%nat)) api0
              (kwargs0 (Iterable (batch TextClassificationRecord 0 1))
                 "example-dataset" 500)
              []
              (log_async (H := env (Some 0%nat)) api0
                 (Iterable (batch TextClassificationRecord 0 1)) "example-dataset"
                 None None 500 false []).1
              transport_error) as (Hraise & _ & Hlogged).
  - reflexivity.
  - split; [exact Hraise|].
    destruct Hlogged as [Htrace _]; [reflexivity|].
    rewrite Htrace. by rewrite last_snoc.
Defined.

(** A program that logs in the background, calls [init] and logs again:
    the two submissions go to the one loop that was started. *)
Lemma execution_context_created_once_witness :
  loops_started
    (caller_trace
       (run_program (H := env None)
          [CallLog (kwargs0 (Iterable (batch TextClassificationRecord 0 1))
                      "example-dataset" 500) true;
           CallInit default_init_args;
           CallLog (kwargs0 (Iterable (batch TextClassificationRecord 0 1))
                      "example-dataset" 500) false]
          initial_process))
  = [0%nat].
Proof.
  destruct (execution_context_created_once (H := env None)
              [CallLog (kwargs0 (Iterable (batch TextClassificationRecord 0 1))
                          "example-dataset" 500) true;
               CallInit default_init_args;
               CallLog (kwargs0 (Iterable (batch TextClassificationRecord 0 1))
                          "example-dataset" 500) false])
    as (_ & Hsubmit & _).
  apply Hsubmit. vm_compute. apply list_elem_of_here.
Defined.

Import ReferenceHost.

(** Five records by chunks of two: the records sent are the five records,
    in their order. *)
Lemma log_async_uploads_batch_in_order_witness :
  uploaded
    (log_async (H := env None) api0 (Iterable (batch TextClassificationRecord 0 5))
       "example-dataset" None None 2 false []).1
  = map (to_creation CreationTextClassificationRecord)
      (batch TextClassificationRecord 0 5).
Proof.
  apply (log_async_uploads_batch_in_order (H := env None) api0
           (batch TextClassificationRecord 0 5) "example-dataset" None None 2 false
           TextClassificationRecord TextClassificationBulkData
           CreationTextClassificationRecord
           (to_creation CreationTextClassificationRecord)
           [answer 2; answer 2; answer 1] []).
  - discriminate.
  - apply batch_variant.
  - reflexivity.
  - lia.
  - discriminate.
  - reflexivity.
  - intros o Ho. by apply strict_from_client_accepts.
  - vm_compute. repeat split.
Defined.

(** The same upload: the response accounts for the five records. *)
Lemma log_async_accounts_for_batch_witness :
  ∃ response,
    (log_async (H := env None) api0 (Iterable (batch TextClassificationRecord 0 5))
       "example-dataset" None None 2 false []).2
    = Returns response
    ∧ dataset response = "example-dataset"
    ∧ processed response + failed response = 5.
Proof.
  apply (log_async_accounts_for_batch (H := env None) api0
           (batch TextClassificationRecord 0 5) "example-dataset" None None 2 false
           TextClassificationRecord TextClassificationBulkData
           CreationTextClassificationRecord
           (to_creation CreationTextClassificationRecord)
           [answer 2; answer 2; answer 1] []).
  - discriminate.
  - apply batch_variant.
  - reflexivity.
  - lia.
  - discriminate.
  - reflexivity.
  - intros o Ho. by apply strict_from_client_accepts.
  - vm_compute. repeat split.
  - vm_compute. repeat constructor.
Defined.

(** The same upload: the progress bar advances by five. *)
Lemma log_async_progress_reaches_total_witness :
  progress
    (log_async (H := env None) api0 (Iterable (batch TextClassificationRecord 0 5))
       "example-dataset" None None 2 false []).1
  = 5%nat.
Proof.
  apply (log_async_progress_reaches_total (H := env None) api0
           (batch TextClassificationRecord 0 5) "example-dataset" None None 2 false
           TextClassificationRecord TextClassificationBulkData
           CreationTextClassificationRecord
           (to_creation CreationTextClassificationRecord)
           [answer 2; answer 2; answer 1] []).
  - discriminate.
  - apply batch_variant.
  - reflexivity.
  - lia.
  - discriminate.
  - reflexivity.
  - intros o Ho. by apply strict_from_client_accepts.
  - vm_compute. repeat split.
Defined.

(** Three records with a chunk size of zero. *)
Lemma log_async_zero_chunk_size_witness :
  (log_async (H := env None) api0 (Iterable (batch TextClassificationRecord 0 3))
     "example-dataset" None None 0 false []).2
  = Raises {| exc_type := ValueError;
              exc_msg := [Lit "range() arg 3 must not be zero"] |}.
Proof.
  destruct (log_async_zero_chunk_size (H := env None) api0
              {| ob_type := TextClassificationRecord; ob_data := 0 |}
              (batch TextClassificationRecord 1 2) "example-dataset" None None false
              (TextClassificationBulkData, CreationTextClassificationRecord) [])
    as (Hrun & _).
  - reflexivity.
  - discriminate.
  - reflexivity.
  - change (batch TextClassificationRecord 0 3)
      with ({| ob_type := TextClassificationRecord; ob_data := 0 |}
              :: batch TextClassificationRecord 1 2).
    by rewrite Hrun.
Defined.

(** Three records with a chunk size of -3: no call. *)
Lemma log_async_calls_well_formed_witness :
  bulk_calls
    (log_async (H := env None) api0 (Iterable (batch TextClassificationRecord 0 3))
       "example-dataset" None None (-3) false []).1
  = [].
Proof.
  destruct (log_async_calls_well_formed (H := env None) api0
              (Iterable (batch TextClassificationRecord 0 3)) "example-dataset"
              None None (-3) false []) as (new & Htr & _ & Hnone).
  rewrite Htr. apply Hnone. lia.
Defined.

(** The user [rubrix], with the workspaces [rubrix] and [team], moves to
    [team]. *)
Lemma set_workspace_then_get_witness :
  get_workspace (H := env None)
    {| base_url := "http://localhost:6900";
       headers := <["X-Rubrix-Workspace" := "team"]> ∅;
       username := "rubrix"; agent_loop := 0 |}
  = "team".
Proof.
  destruct (set_workspace_then_get (H := env None) api0 user0 "team"
              (<["X-Rubrix-Workspace" := "team"]> ∅)) as [Hget _].
  - reflexivity.
  - reflexivity.
  - exact Hget.
Defined.

(** The same user asks for a workspace that is not among its own. *)
Lemma set_workspace_refusals_witness :
  returned (set_workspace (H := env None) user0 (Some "other") ∅) = false.
Proof.
  apply (proj2 (set_workspace_refusals (H := env None) user0 (Some "other") ∅)).
  right. exists "other", ["rubrix"; "team"]. split_and!; try done.
  rewrite !elem_of_cons, elem_of_nil. intros [|[|[]]]; discriminate.
Defined.

(** An [Api] for a URL with a slash at its end. *)
Lemma Api_connect_base_url_witness :
  Api_connect (H := env None) (H0 := host) args0
  = Returns {| s_base_url := "http://localhost:9090";
               s_headers := <["X-Rubrix-Workspace" := "team"]> ∅;
               s_username := "rubrix" |}
  ∧ s_base_url {| s_base_url := "http://localhost:9090";
                  s_headers := <["X-Rubrix-Workspace" := "team"]> ∅;
                  s_username := "rubrix" |}
    = "http://localhost:9090".
Proof.
  assert (Api_connect (H := env None) (H0 := host) args0
          = Returns {| s_base_url := "http://localhost:9090";
                       s_headers := <["X-Rubrix-Workspace" := "team"]> ∅;
                       s_username := "rubrix" |}) as Hs by reflexivity.
  split; [exact Hs|].
  apply (proj1 (Api_connect_base_url (H := env None) (H0 := host) args0 _ Hs)
           "http://localhost:9090").
  reflexivity.
Defined.

(** On a host that cannot be reached, [init] and the [log] of the module
    raise and leave the process as it was. *)
Lemma failed_construction_changes_nothing_witness :
  init (H := env_offline) default_init_args initial_process
  = (initial_process, Raises unreachable)
  ∧ log (H := env_offline)
      (kwargs0 (Iterable (batch TextClassificationRecord 0 1)) "example-dataset" 500)
      false initial_process
    = (initial_process, Raises unreachable).
Proof.
  destruct (failed_construction_changes_nothing (H := env_offline) default_init_args
              (kwargs0 (Iterable (batch TextClassificationRecord 0 1))
                 "example-dataset" 500)
              false initial_process unreachable) as [Hinit Hlog].
  split.
  - apply Hinit. reflexivity.
  - apply Hlog; reflexivity.
Defined.

(** After a first [active_api()], a log and the construction of another
    client, [active_api()] still returns the first client. *)
Lemma active_api_is_stable_witness :
  (active_api (H := env None)
     (run_program (H := env None)
        [CallLog (kwargs0 (Iterable (batch TextClassificationRecord 0 1))
                    "example-dataset" 500) false;
         CallNewApi default_init_args]
        (active_api (H := env None) initial_process).1)).2
  = Returns api0.
Proof.
  rewrite (active_api_is_stable (H := env None)
             [CallLog (kwargs0 (Iterable (batch TextClassificationRecord 0 1))
                         "example-dataset" 500) false;
              CallNewApi default_init_args]
             (active_api (H := env None) initial_process).1 api0).
  - reflexivity.
  - reflexivity.
  - intros args. rewrite !elem_of_cons, elem_of_nil. intros [|[|[]]]; discriminate.
Defined.

(** [init] on a process without a default client. *)
Lemma init_replaces_default_witness :
  ∃ a, (active_api (H := env None)
          (init (H := env None) default_init_args initial_process).1).2
       = Returns a
       ∧ base_url a = "http://localhost:6900".
Proof.
  destruct (init_replaces_default (H := env None) default_init_args initial_process
              {| s_base_url := "http://localhost:6900"; s_headers := ∅;
                 s_username := "rubrix" |})
    as (a & _ & Hact & Hurl & _).
  - reflexivity.
  - exists a. rewrite Hact. split; [reflexivity|exact Hurl].
Defined.

(** An [Api] built on the reference host for the workspace [team]. *)
Lemma Api_init_with_workspace_witness :
  ∃ a, (Api_init (H := env_on_host) args0 initial_process).2 = Returns a
       ∧ get_workspace (H := env_on_host) a = "team".
Proof.
  destruct (Api_init_with_workspace (H := env_on_host) (H0 := host) args0
              initial_process "team") as [Hget _].
  - intros args'. reflexivity.
  - reflexivity.
  - eexists. split; [reflexivity|]. apply Hget. reflexivity.
Defined.

(** A dataset whose identifiers are 10, the string a and 9: the records
    come back sorted by the text of their identifiers. *)
Lemma load_returns_sorted_records_witness :
  ∃ rs,
    (load (H := server) "news" None None None None None []).2
    = Returns {| ds_class := DatasetForTextClassification; ds_records := rs |}
    ∧ rs ≡ₚ records0
    ∧ Sorted str_id_le rs.
Proof.
  destruct (load_returns_sorted_records (H := server) "news" None None None None None
              [] text_classification text_classification_api TextClassificationQuery
              DatasetForTextClassification records0)
    as (rs & Hret & Hperm & _ & Htwo & _).
  - discriminate.
  - reflexivity.
  - reflexivity.
  - reflexivity.
  - exists rs. split_and!; [exact Hret|exact Hperm|]. apply Htwo. reflexivity.
Defined.

(** A dataset of a task the client does not load. *)
Lemma load_refusals_witness :
  (load (H := server) "legacy" None None None None None []).2
  = Raises (unsupported_task_error (other_task "MultiTask")).
Proof.
  destruct (load_refusals (H := server) "legacy" None None None None None [])
    as (_ & Htask & _).
  apply (Htask ltac:(discriminate) (other_task "MultiTask")); reflexivity.
Defined.

(** A metric the dataset does not have. *)
Lemma get_metric_first_or_none_witness :
  (get_metric (H := server) "news" "F2" []).2 = Returns None.
Proof.
  apply (proj1 (get_metric_first_or_none (H := server) "news" "F2" []
                  text_classification
                  [ {| mi_id := "F1"; mi_fields := 0 |};
                    {| mi_id := "text_length"; mi_fields := 1 |} ]
                  eq_refl eq_refl)).
  repeat constructor; discriminate.
Defined.

(** The computation of a metric the dataset does not have. *)
Lemma compute_metric_needs_known_metric_witness :
  (compute_metric (H := server) "news" "F2" no_args []).2
  = Raises (metric_not_found "F2").
Proof.
  rewrite (proj1 (compute_metric_needs_known_metric (H := server) "news" "F2" no_args
                    [] text_classification text_classification
                    [ {| mi_id := "F1"; mi_fields := 0 |};
                      {| mi_id := "text_length"; mi_fields := 1 |} ]
                    eq_refl eq_refl eq_refl)).
  - reflexivity.
  - repeat constructor; discriminate.
Defined.

End Examples.
